(** * CRANE GUARD, unit A (anchor): the safety evaluation engine

    A shallow embedding of [anchor_anticoll.ino]: the link watchdog, the
    hysteresis zone classifier, the failsafe policy, the transition
    recorder with its ring buffer of events, the relay arbiter, the two
    log readers, the configuration load and save paths, the uptime string
    and the parser of the peer address.

    Conventions.
    - [int] and [unsigned long] are [Z]; the wrap-around of 32-bit unsigned
      arithmetic is written out with [u32].
    - [float] is IEEE binary32 and [double] binary64, both as [spec_float]
      with the operations of [SpecFloat] at the matching precision.
    - [String] is [string].
    - The globals [sys], [stats], [cfg], [history], [logHead] and the two
      function-local statics of [checkSafetyAndRelays] form the record
      [World]; every function of the sketch that touches them is a function
      on [World].
    - [millis()] is an input: each function takes the values it reads.
    - One call of [checkSafetyAndRelays] and one accepted frame of
      [uwb_task] are atomic steps; a run interleaves them.
    - Not modelled: the text of the ranging frames, the ESP-NOW packet, the
      display, the HTML pages and the JSON and CSV text; of the two log
      routes only the choice of entries is. *)

From Stdlib Require Import ZArith Lia Bool String Ascii.
From Stdlib Require Import DecimalString.
From Stdlib Require Import Floats.SpecFloat.
From stdpp Require Import base list.

Local Open Scope string_scope.
Local Open Scope list_scope.
Local Open Scope Z_scope.

(** ** Machine integers *)

(** [unsigned long] on the target is 32 bits wide. *)
Definition u32 (z : Z) : Z := z mod 2 ^ 32.

(** ** Floating point *)

Module F32.
Definition prec : Z := 24.
Definition emax : Z := 128.
(** An [int] constant converted to [float]. *)
Definition of_Z (z : Z) : spec_float := binary_normalize prec emax z 0 false.
Definition zero : spec_float := S754_zero false.
(** [double] to [float], round to nearest even. *)
Definition of_double (x : spec_float) : spec_float :=
  match x with
  | S754_finite s m e => binary_round prec emax s m e
  | _ => x
  end.
End F32.

Module F64.
Definition prec : Z := 53.
Definition emax : Z := 1024.
Definition of_Z (z : Z) : spec_float := binary_normalize prec emax z 0 false.
(** [float] to [double] (exact). *)
Definition of_float (x : spec_float) : spec_float :=
  match x with
  | S754_finite s m e => binary_round prec emax s m e
  | _ => x
  end.
Definition add : spec_float -> spec_float -> spec_float := SFadd prec emax.
(** The literal [0.1]. *)
Definition lit_0_1 : spec_float := SFdiv prec emax (of_Z 1) (of_Z 10).
End F64.

(** The C comparisons; every one of them is false on a NaN operand except
    [!=], which is true. *)
Definition f_le (a b : spec_float) : bool := SFleb a b.
Definition f_lt (a b : spec_float) : bool := SFltb a b.
Definition f_gt (a b : spec_float) : bool := SFltb b a.
Definition f_ne (a b : spec_float) : bool := negb (SFeqb a b).

Definition is_nan (x : spec_float) : bool :=
  match x with S754_nan => true | _ => false end.

(** The values a [float] can hold. *)
Definition valid_f32 (x : spec_float) : bool := valid_binary F32.prec F32.emax x.

(** ** Constants *)

Definition WATCHDOG_MS : Z := 1000.
(** [HYSTERESIS_CM] is the [double] literal [20.0]. *)
Definition HYSTERESIS_CM : spec_float := F64.of_Z 20.
Definition MAX_LOG_EVENTS : Z := 50.

(** The encoding of [safety_level]: 0=Safe, 1=Warn, 2=Stop, 3=CommLoss. *)
Definition SAFE : Z := 0.
Definition WARN : Z := 1.
Definition STOP : Z := 2.
Definition COMMLOSS : Z := 3.

(** ** Data structures *)

Record EventLog := mkEventLog {
  timestamp : string;
  distance : spec_float;
  zone : string;
  link_quality : Z
}.

Record SafetyState := mkSafetyState {
  distance_cm : spec_float;
  status_msg : string;
  safety_level : Z;
  last_packet_ms : Z;
  last_known_zone : Z;
  link_quality_pct : Z;
  relay_red : bool;
  relay_yellow : bool;
  relay_green : bool;
  relay_health : bool
}.

Record Statistics := mkStatistics {
  red_entries : Z;
  yellow_entries : Z;
  comm_drops : Z;
  last_level_stats : Z
}.

Record Config := mkConfig {
  pan_id : Z;
  limit_warn_cm : spec_float;
  limit_stop_cm : spec_float;
  ap_ssid : string;
  peer_mac : string
}.

Record World := mkWorld {
  sys : SafetyState;
  stats : Statistics;
  cfg : Config;
  history : list EventLog;
  logHead : Z;
  (** [static] locals of [checkSafetyAndRelays] *)
  lastCoilStatus : Z;
  lastModbusTime : Z
}.

(** The persistent key-value store ("cg-a" namespace of [Preferences]):
    a key that was never written reads as [None]. *)
Record Prefs := mkPrefs {
  nvs_pan : option Z;
  nvs_stop : option spec_float;
  nvs_warn : option spec_float;
  nvs_ap : option string;
  nvs_mac : option string
}.

(** ** Helper functions *)

Definition dec_str (z : Z) : string :=
  NilZero.string_of_uint (N.to_uint (Z.to_N z)).

(** [printf]'s [%02d] on a value that is never negative. *)
Definition pad2 (z : Z) : string :=
  if z <? 10 then String.append "0" (dec_str z) else dec_str z.

(** [millis] is the reading of the millisecond clock. *)
Definition getUptimeStr (millis : Z) : string :=
  let now := millis / 1000 in
  let sec := now mod 60 in
  let min := (now / 60) mod 60 in
  let hr := now / 3600 in
  String.concat ":" [pad2 hr; pad2 min; pad2 sec].

(** [history] and [logHead] after [logEvent(dist, zoneName, quality)];
    [millis] is the clock as [getUptimeStr] reads it.  [toCharArray(_, 16)]
    keeps at most 15 characters. *)
Definition logEvent (millis : Z) (dist : spec_float) (zoneName : string)
    (quality : Z) (h : list EventLog) (head : Z) : list EventLog * Z :=
  let t := getUptimeStr millis in
  let e := mkEventLog (substring 0 15 t) dist zoneName quality in
  let h' := <[Z.to_nat head := e]> h in
  let head' := head + 1 in
  (h', if MAX_LOG_EVENTS <=? head' then 0 else head').

(** ** Config and NVS *)

Definition loadConfig (p : Prefs) : Config :=
  let pan := default 33 (nvs_pan p) in
  let stop := default (F32.of_Z 500) (nvs_stop p) in
  let warn := default (F32.of_Z 1500) (nvs_warn p) in
  let ap := default "CRANE-GUARD-A" (nvs_ap p) in
  let mac := default "10:20:BA:4F:FD:94" (nvs_mac p) in
  (* SANITY CHECK *)
  let stop := if f_lt stop (F32.of_Z 50) then F32.of_Z 500 else stop in
  let warn := if f_lt warn (F32.of_Z 50) then F32.of_Z 1500 else warn in
  mkConfig pan warn stop ap mac.

(** The [/save] route up to [ESP.restart()]: [stop] and [warn] are the
    values of the two POST parameters after [toFloat()], [None] when the
    parameter is absent.  The result is the [cfg] the evaluation loop sees
    until the restart, and the store the next start reads. *)
Definition save_cfg (stop warn : option spec_float) (c : Config) (p : Prefs)
    : Config * Prefs :=
  let c1 := match stop with
            | Some v => mkConfig (pan_id c) (limit_warn_cm c) v (ap_ssid c) (peer_mac c)
            | None => c
            end in
  let c2 := match warn with
            | Some v => mkConfig (pan_id c1) v (limit_stop_cm c1) (ap_ssid c1) (peer_mac c1)
            | None => c1
            end in
  (c2, mkPrefs (nvs_pan p) (Some (limit_stop_cm c2)) (Some (limit_warn_cm c2))
               (nvs_ap p) (nvs_mac p)).

(** The globals as the C++ runtime zero-initialises them, and the statics
    with their initialisers. *)
Definition sys0 : SafetyState :=
  mkSafetyState F32.zero "" 0 0 0 0 false false false false.

Definition stats0 : Statistics := mkStatistics 0 0 0 0.

Definition history0 : list EventLog :=
  replicate (Z.to_nat MAX_LOG_EVENTS) (mkEventLog "" F32.zero "" 0).

(** The state when [loop] first runs: [setup] has called [loadConfig]. *)
Definition boot (p : Prefs) : World :=
  mkWorld sys0 stats0 (loadConfig p) history0 0 255 0.

(** The handler of [/save] on the whole state, before the restart. *)
Definition save (stop warn : option spec_float) (w : World) (p : Prefs)
    : World * Prefs :=
  let r := save_cfg stop warn (cfg w) p in
  (mkWorld (sys w) (stats w) (fst r) (history w) (logHead w)
     (lastCoilStatus w) (lastModbusTime w),
   snd r).

(** [/save] followed by its [ESP.restart()] and the [setup] of the new
    start. *)
Definition save_and_restart (stop warn : option spec_float) (w : World)
    (p : Prefs) : World * Prefs :=
  let r := save stop warn w p in
  (boot (snd r), snd r).

(** ** Core safety logic *)

Module Arduino.
(** Modelled from the spec: [map] belongs to the Arduino core, which is
    not part of the sketch.  It is the integer linear interpolation
    [(x - in_min) * (out_max - out_min) / (in_max - in_min) + out_min]
    on [long], with C's division (truncation towards zero). *)
Definition map (x in_min in_max out_min out_max : Z) : Z :=
  let run := in_max - in_min in
  let rise := out_max - out_min in
  let delta := x - in_min in
  (delta * rise) ÷ run + out_min.
End Arduino.

(** Calculate Link Quality. *)
Definition calc_link_quality (elapsed : Z) : Z :=
  if elapsed <? 100 then 100
  else if 2000 <? elapsed then 0
  else Arduino.map elapsed 100 2000 100 0.

(** [limit + (cur ? HYSTERESIS_CM : 0)] stored in a [float]: the sum is
    taken in [double], the conditional having type [double]. *)
Definition eff_limit (limit : spec_float) (cur : bool) : spec_float :=
  F32.of_double
    (F64.add (F64.of_float limit) (if cur then HYSTERESIS_CM else F64.of_Z 0)).

(** The branch [!signal_lost]: the new [safety_level] and [status_msg]. *)
Definition classify (c : Config) (level : Z) (d : spec_float) : Z * string :=
  let cur_stop := level =? 2 in
  let cur_warn := level =? 1 in
  let eff_stop := eff_limit (limit_stop_cm c) cur_stop in
  let eff_warn := eff_limit (limit_warn_cm c) cur_warn in
  if f_le d eff_stop then (2, "DANGER: STOP")
  else if f_le d eff_warn then (1, "WARNING: SLOW")
  else (0, "SAFE DISTANCE").

(** The branch [signal_lost]: Failsafe Logic. *)
Definition failsafe (last_known_zone : Z) : Z * string :=
  if last_known_zone =? 0 then (0, "SAFE (NO LINK)") else (3, "SIGNAL LOST").

Definition zone_name (level : Z) : string :=
  let zName := "SAFE" in
  let zName := if level =? 1 then "WARN" else zName in
  let zName := if level =? 2 then "DANGER" else zName in
  let zName := if level =? 3 then "LOSS" else zName in
  zName.

(** STATS LOGGING ENGINE: [stats], [history] and [logHead] after the block,
    for the new [level]; [t_log] is the clock as [logEvent] reads it. *)
Definition record_transition (t_log : Z) (level : Z) (d : spec_float)
    (quality : Z) (st : Statistics) (h : list EventLog) (head : Z)
    : Statistics * (list EventLog * Z) :=
  if negb (level =? last_level_stats st) then
    let red := if level =? 2 then u32 (red_entries st + 1) else red_entries st in
    let yellow := if level =? 1 then u32 (yellow_entries st + 1) else yellow_entries st in
    let drops := if level =? 3 then u32 (comm_drops st + 1) else comm_drops st in
    let log :=
      if f_gt d (F32.of_Z 0) || (level =? 3)
      then logEvent t_log d (zone_name level) quality h head
      else (h, head) in
    (mkStatistics red yellow drops level, log)
  else (st, (h, head)).

(** The coil pattern of the four relay bits. *)
Definition coil_status (red yellow green health : bool) : Z :=
  let coilStatus := 0 in
  let coilStatus := if red then Z.lor coilStatus (Z.shiftl 1 0) else coilStatus in
  let coilStatus := if yellow then Z.lor coilStatus (Z.shiftl 1 1) else coilStatus in
  let coilStatus := if green then Z.lor coilStatus (Z.shiftl 1 2) else coilStatus in
  let coilStatus := if health then Z.lor coilStatus (Z.shiftl 1 3) else coilStatus in
  coilStatus.

(** [elapsed] and [signal_lost] as the function computes them on entry. *)
Definition elapsed_ms (now : Z) (w : World) : Z :=
  u32 (now - last_packet_ms (sys w)).

Definition signal_lost (now : Z) (w : World) : bool :=
  WATCHDOG_MS <? elapsed_ms now w.

(** One call of [checkSafetyAndRelays].  [now] is the value of [millis()]
    at entry and [t_log] its value when [logEvent] is reached.  The result
    is the new state and the coil pattern handed to the Modbus node, [None]
    when no write is issued. *)
Definition checkSafetyAndRelays (now t_log : Z) (w : World) : World * option Z :=
  let s := sys w in
  let elapsed := elapsed_ms now w in
  let signal_lost := signal_lost now w in
  let quality := calc_link_quality elapsed in
  let lm := if negb signal_lost
            then classify (cfg w) (safety_level s) (distance_cm s)
            else failsafe (last_known_zone s) in
  let level := fst lm in
  let lkz := if negb signal_lost then level else last_known_zone s in
  let rec := record_transition t_log level (distance_cm s) quality
               (stats w) (history w) (logHead w) in
  (* Relay Output *)
  let red := level =? 2 in
  let yellow := level =? 1 in
  let green := level =? 0 in
  let health := level =? 3 in
  let s' := mkSafetyState (distance_cm s) (snd lm) level (last_packet_ms s)
              lkz quality red yellow green health in
  (* Modbus Write *)
  let coilStatus := coil_status red yellow green health in
  let write := negb (coilStatus =? lastCoilStatus w)
               || (500 <? u32 (now - lastModbusTime w)) in
  (mkWorld s' (fst rec) (cfg w) (fst (snd rec)) (snd (snd rec))
     (if write then coilStatus else lastCoilStatus w)
     (if write then now else lastModbusTime w),
   if write then Some coilStatus else None).

Arguments checkSafetyAndRelays : simpl never.

(** ** UWB task *)

(** The filter [d > 0.1]: the comparison is made in [double]. *)
Definition accepted (d : spec_float) : bool :=
  f_gt (F64.of_float d) F64.lit_0_1.

(** A frame [AT+RANGE=...range:(d...] whose distance parses to [d], read at
    clock [millis]. *)
Definition uwb_range (d : spec_float) (millis : Z) (w : World) : World :=
  if accepted d then
    let s := sys w in
    mkWorld
      (mkSafetyState d (status_msg s) (safety_level s) millis
         (last_known_zone s) (link_quality_pct s)
         (relay_red s) (relay_yellow s) (relay_green s) (relay_health s))
      (stats w) (cfg w) (history w) (logHead w)
      (lastCoilStatus w) (lastModbusTime w)
  else w.

(** ** Log readers *)

(** The entries [/live] puts into ["hist"], in buffer order. *)
Definition live_hist (h : list EventLog) : list EventLog :=
  List.filter (fun e => f_gt (distance e) (F32.of_Z 0)) h.

(** The entries [/download_csv] turns into rows, in buffer order. *)
Definition csv_rows (h : list EventLog) : list EventLog :=
  List.filter (fun e => f_ne (distance e) (F32.of_Z 0)) h.

(** ** Runs *)

(** The two tasks interleave; a run is the sequence of what happened:
    a call of [checkSafetyAndRelays] from [loop], or a ranging frame
    handled by [uwb_task]. *)
Inductive Event :=
| Tick (now t_log : Z)
| Range (d : spec_float) (millis : Z).

Definition step (e : Event) (w : World) : World * list (option Z) :=
  match e with
  | Tick now t_log =>
      let r := checkSafetyAndRelays now t_log w in (fst r, [snd r])
  | Range d millis => (uwb_range d millis w, [])
  end.

(** The state after a run. *)
Fixpoint run (es : list Event) (w : World) : World :=
  match es with
  | [] => w
  | e :: es => run es (fst (step e w))
  end.

(** The state after each tick of a run, with what the tick wrote. *)
Fixpoint ticks (es : list Event) (w : World) : list (World * option Z) :=
  match es with
  | [] => []
  | e :: es =>
      let r := step e w in
      List.map (fun o => (fst r, o)) (snd r) ++ ticks es (fst r)
  end.

Definition levels (es : list Event) (w : World) : list Z :=
  List.map (fun r => safety_level (sys (fst r))) (ticks es w).

Definition writes (es : list Event) (w : World) : list (option Z) :=
  List.map snd (ticks es w).

Definition no_prefs : Prefs := mkPrefs None None None None None.

(** ** Notions used in the statements *)

(** The level the tick at [now] gives [w], whatever the rest of the tick does. *)
Definition next_level (now : Z) (w : World) : Z :=
  if signal_lost now w
  then fst (failsafe (last_known_zone (sys w)))
  else fst (classify (cfg w) (safety_level (sys w)) (distance_cm (sys w))).

Definition coil_of_level (level : Z) : Z :=
  coil_status (level =? 2) (level =? 1) (level =? 0) (level =? 3).

(** How many of the four relay bits are set. *)
Definition relays_on (s : SafetyState) : nat :=
  length (List.filter id
            [relay_red s; relay_yellow s; relay_green s; relay_health s]).

(** The arbiter's decision at [now] in [w]: the condition of the [if]
    around the Modbus write. *)
Definition bus_write (now : Z) (w : World) : bool :=
  negb (coil_of_level (next_level now w) =? lastCoilStatus w)
  || (500 <? u32 (now - lastModbusTime w)).

(** An event that leaves the link dead in [w]: a frame the filter drops,
    or a tick that finds the watchdog expired. *)
Definition quiet (w : World) (e : Event) : bool :=
  match e with
  | Tick now _ => signal_lost now w
  | Range d _ => negb (accepted d)
  end.

(** ** The worked example *)

(** Thresholds 500 and 1500 (the defaults), level Safe at the start, and
    the distances 600, 480, 520, 1600: each sample is followed by a tick
    one millisecond later. *)
Definition example_run : list Event :=
  [Range (F32.of_Z 600) 10000; Tick 10001 10001;
   Range (F32.of_Z 480) 10100; Tick 10101 10101;
   Range (F32.of_Z 520) 10200; Tick 10201 10201;
   Range (F32.of_Z 1600) 10300; Tick 10301 10301].

(** What [signal_lost] is at each tick of a run. *)
Fixpoint lost_flags (es : list Event) (w : World) : list bool :=
  match es with
  | [] => []
  | Tick now t_log :: es =>
      signal_lost now w :: lost_flags es (fst (checkSafetyAndRelays now t_log w))
  | Range d millis :: es => lost_flags es (uwb_range d millis w)
  end.

(** The zone labels [/live] shows for a buffer. *)
Definition shown_zones (w : World) : list string :=
  List.map zone (live_hist (history w)).

(** The state in which [/save] has been posted 10 and 20 on a freshly
    started device and, before [ESP.restart()] is reached, a sample of
    30 cm has arrived. *)
Definition posted_low : World :=
  uwb_range (F32.of_Z 30) 10100
    (fst (save (Some (F32.of_Z 10)) (Some (F32.of_Z 20)) (boot no_prefs) no_prefs)).

(** The same sample after the restart that follows the post. *)
Definition posted_low_restarted : World :=
  uwb_range (F32.of_Z 30) 10100
    (fst (save_and_restart (Some (F32.of_Z 10)) (Some (F32.of_Z 20))
            (boot no_prefs) no_prefs)).

(** No frame of the run passes the filter of [uwb_task]. *)
Definition no_sample (es : list Event) : bool :=
  forallb (fun e => match e with
                    | Tick _ _ => true
                    | Range d _ => negb (accepted d)
                    end) es.

(** ** Sequences of log events *)

(** The arguments of one call of [logEvent]: clock, distance, zone, quality. *)
Definition LogArgs : Type := Z * spec_float * string * Z.

(** The entry [logEvent] stores for these arguments. *)
Definition entry_of (a : LogArgs) : EventLog :=
  let '(millis, dist, zoneName, quality) := a in
  mkEventLog (substring 0 15 (getUptimeStr millis)) dist zoneName quality.

(** Consecutive calls of [logEvent]. *)
Fixpoint log_events (args : list LogArgs) (h : list EventLog) (head : Z)
    : list EventLog * Z :=
  match args with
  | [] => (h, head)
  | (millis, dist, zoneName, quality) :: rest =>
      let r := logEvent millis dist zoneName quality h head in
      log_events rest (fst r) (snd r)
  end.

(** ** What every reachable state satisfies *)

(** A stored distance: still the initial 0, or a value the filter of
    [uwb_task] let through. *)
Definition sample_ok (d : spec_float) : Prop :=
  d = F32.zero \/ accepted d = true.

Record Inv (p : Prefs) (w : World) : Prop := mkInv {
  inv_cfg : cfg w = loadConfig p;
  inv_level : 0 <= safety_level (sys w) <= 3;
  inv_zone : 0 <= last_known_zone (sys w) <= 2;
  inv_recorded : last_level_stats (stats w) = safety_level (sys w);
  inv_head : 0 <= logHead w < 50;
  inv_slots : length (history w) = 50%nat;
  inv_sample : sample_ok (distance_cm (sys w));
  inv_entries :
    Forall (fun e => sample_ok (distance e) /\ 0 <= link_quality e <= 100)
      (history w);
  inv_quality : 0 <= link_quality_pct (sys w) <= 100;
  inv_coil :
    lastCoilStatus w = 255
    \/ lastCoilStatus w = coil_of_level (safety_level (sys w));
  inv_counters :
    0 <= red_entries (stats w) < 2 ^ 32
    /\ 0 <= yellow_entries (stats w) < 2 ^ 32
    /\ 0 <= comm_drops (stats w) < 2 ^ 32
}.

(** ** Parsing the peer address *)

(** C's [strchr] on the text of a string: the rest of [s] from the first
    [c] on; for [c] the NUL character, the terminator itself. *)
Fixpoint strchr (s : string) (c : ascii) : option string :=
  match s with
  | EmptyString => if Ascii.eqb c Ascii.zero then Some EmptyString else None
  | String a rest => if Ascii.eqb a c then Some s else strchr rest c
  end.

Section ParseBytes.

(** [strtoul(str, NULL, base)] of the C library, which the sketch does not
    define: any function from the text and the base to the number read. *)
Variable strtoul : string -> Z -> Z.

(** The loop of [parseBytes] with [n] rounds left, at index [i].  A store
    into [bytes[i]] keeps the low 8 bits; [bytes] is as long as the array
    the caller passes (6 for [peerMac], with [maxBytes] 6). *)
Fixpoint parseBytes_loop (n i : nat) (str : string) (sep : ascii)
    (bytes : list Z) (base : Z) : list Z :=
  match n with
  | O => bytes
  | S n' =>
      let bytes' := <[i := strtoul str base mod 256]> bytes in
      match strchr str sep with
      | None => bytes'
      | Some EmptyString => bytes'
      | Some (String a rest) =>
          if Ascii.eqb a Ascii.zero then bytes'
          else parseBytes_loop n' (S i) rest sep bytes' base
      end
  end.

Definition parseBytes (str : string) (sep : ascii) (bytes : list Z)
    (maxBytes base : Z) : list Z :=
  parseBytes_loop (Z.to_nat maxBytes) 0 str sep bytes base.

(** [peerMac] after [loadConfig]: the global starts as six zero bytes. *)
Definition load_peerMac (c : Config) : list Z :=
  parseBytes (peer_mac c) ":" (replicate 6 0) 6 16.

End ParseBytes.

(** Text made of fields with a separator between them. *)
Fixpoint join_fields (sep : ascii) (fields : list string) : string :=
  match fields with
  | [] => ""
  | [fd] => fd
  | fd :: rest => String.append fd (String sep (join_fields sep rest))
  end.

(** ** Counting entries into a zone *)

(** How often a sequence of levels enters [z], coming from level [prev]. *)
Fixpoint entries_into (z prev : Z) (ls : list Z) : Z :=
  match ls with
  | [] => 0
  | l :: ls' =>
      (if (l =? z) && negb (prev =? z) then 1 else 0) + entries_into z l ls'
  end.

(** * Properties *)

(** ** Floating-point facts *)



Lemma iter_pos_iter {A} (g : A -> A) p : forall x, SpecFloat.iter_pos g p x = Pos.iter g x p.
Proof.
  induction p as [p IH|p IH|]; intros x; cbn.
  - rewrite !IH. rewrite <- !Pos.iter_swap. reflexivity.
  - rewrite !IH. reflexivity.
  - reflexivity.
Qed.

Lemma digits2_shift m d :
  digits2_pos (Pos.iter xO m d) = (digits2_pos m + d)%positive.
Proof.
  induction d as [|d IH] using Pos.peano_ind.
  - cbn. lia.
  - rewrite Pos.iter_succ. cbn. rewrite IH. lia.
Qed.

Lemma shr_shift m d :
  SpecFloat.iter_pos shr_1 d (Build_shr_record (Zpos (Pos.iter xO m d)) false false)
  = Build_shr_record (Zpos m) false false.
Proof.
  rewrite iter_pos_iter.
  induction d as [|d IH] using Pos.peano_ind.
  - reflexivity.
  - rewrite Pos.iter_succ_r. rewrite Pos.iter_succ. cbn [shr_1 orb]. exact IH.
Qed.

Lemma bounded32 m e :
  bounded 24 128 m e = true ->
  Z.max (Zpos (digits2_pos m) + e - 24) (-149) = e /\ e <= 104.
Proof.
  unfold bounded, canonical_mantissa, fexp, emin. intros H.
  apply andb_true_iff in H as [H1 H2].
  apply Z.eqb_eq in H1. apply Z.leb_le in H2.
  split; [exact H1 | exact H2].
Qed.

(** A [float] mantissa of [k] bits is shifted left by [53 - k] in [double]. *)
Lemma to_double_finite s m e (d : positive) :
  Zpos d = 53 - Zpos (digits2_pos m) -> -149 <= e <= 104 ->
  binary_round 53 1024 s m e = S754_finite s (Pos.iter xO m d) (e - Zpos d).
Proof.
  intros Hd He.
  unfold binary_round, fexp, emin.
  assert (E1 : IntDef.Z.max (Z.pos (digits2_pos m) + e - 53) (3 - 1024 - 53)
               = e - Zpos d).
  { change IntDef.Z.max with Z.max. lia. }
  rewrite E1. unfold shl_align.
  replace (e - Zpos d - e) with (Zneg d) by lia.
  unfold binary_round_aux, shr_fexp, fexp, emin.
  cbn [Zdigits2]. rewrite digits2_shift.
  assert (E2 : IntDef.Z.max (Z.pos (digits2_pos m + d) + (e - Z.pos d) - 53)
                 (3 - 1024 - 53) - (e - Z.pos d) = 0).
  { change IntDef.Z.max with Z.max. lia. }
  rewrite E2. cbn [shr shr_record_of_loc shr_m loc_of_shr_record round_nearest_even].
  cbn [Zdigits2]. rewrite digits2_shift. rewrite E2.
  cbn [shr shr_record_of_loc shr_m].
  replace (e - Z.pos d <=? 1024 - 53) with true; [reflexivity|].
  symmetry. apply Z.leb_le. lia.
Qed.

(** Rounding it back to [float] drops the same zero bits. *)
Lemma to_float_back s m e (d : positive) :
  bounded 24 128 m e = true ->
  Zpos d = 53 - Zpos (digits2_pos m) ->
  binary_round 24 128 s (Pos.iter xO m d) (e - Zpos d) = S754_finite s m e.
Proof.
  intros Hb Hd. apply bounded32 in Hb as [Hc He].
  unfold binary_round, fexp, emin. rewrite digits2_shift.
  assert (E1 : IntDef.Z.max (Z.pos (digits2_pos m + d) + (e - Z.pos d) - 24)
                 (3 - 128 - 24) = e).
  { change IntDef.Z.max with Z.max. lia. }
  rewrite E1. unfold shl_align.
  replace (e - (e - Zpos d)) with (Zpos d) by lia.
  unfold binary_round_aux, shr_fexp, fexp, emin.
  cbn [Zdigits2]. rewrite digits2_shift. rewrite E1.
  replace (e - (e - Zpos d)) with (Zpos d) by lia.
  cbn [shr shr_record_of_loc]. rewrite shr_shift.
  cbn [shr_m loc_of_shr_record round_nearest_even Zdigits2].
  replace (e - Zpos d + Zpos d) with e by lia.
  assert (E3 : IntDef.Z.max (Z.pos (digits2_pos m) + e - 24) (3 - 128 - 24) - e = 0).
  { change IntDef.Z.max with Z.max. lia. }
  rewrite E3. cbn [shr shr_record_of_loc shr_m].
  replace (e <=? 128 - 24) with true; [reflexivity|].
  symmetry. apply Z.leb_le. lia.
Qed.

Lemma SFcompare_zero_sign d s1 s2 :
  SFcompare d (S754_zero s1) = SFcompare d (S754_zero s2).
Proof. destruct d; reflexivity. Qed.

(** Outside its zone a threshold is compared as it is: [limit + 0], taken
    in [double] and stored back, is [limit] (up to the sign of a zero). *)
Lemma eff_limit_flat limit d :
  valid_f32 limit = true -> f_le d (eff_limit limit false) = f_le d limit.
Proof.
  intros Hv. destruct limit as [s|s| |s m e]; try reflexivity.
  - unfold f_le, SFleb. destruct s; cbn; [|reflexivity].
    rewrite (SFcompare_zero_sign d false true). reflexivity.
  - cbn in Hv. pose proof (bounded32 m e Hv) as [Hc He].
    assert (Hpos : 0 < 53 - Zpos (digits2_pos m)) by lia.
    assert (Hd : Zpos (Z.to_pos (53 - Zpos (digits2_pos m)))
                 = 53 - Zpos (digits2_pos m)) by (apply Z2Pos.id; exact Hpos).
    unfold eff_limit, F64.of_float, F64.prec, F64.emax.
    rewrite (to_double_finite s m e _ Hd) by lia.
    cbn [F64.add SFadd F64.of_Z binary_normalize].
    unfold F32.of_double, F32.prec, F32.emax.
    rewrite (to_float_back s m e _ Hv Hd). reflexivity.
Qed.

(** ** The level a tick computes *)

(** Open a tick and split on the watchdog. *)
Ltac open_tick now w :=
  unfold checkSafetyAndRelays, next_level; cbn;
  destruct (signal_lost now w); cbn.

Lemma tick_level now t_log w :
  safety_level (sys (fst (checkSafetyAndRelays now t_log w))) = next_level now w.
Proof.
  open_tick now w; reflexivity.
Qed.

Lemma classify_cases c l d :
  fst (classify c l d) = STOP \/ fst (classify c l d) = WARN
  \/ fst (classify c l d) = SAFE.
Proof.
  unfold classify.
  destruct (f_le d _); [now left|].
  destruct (f_le d _); [now right; left | now right; right].
Qed.

Lemma failsafe_cases z :
  fst (failsafe z) = SAFE \/ fst (failsafe z) = COMMLOSS.
Proof. unfold failsafe. destruct (z =? 0); [now left | now right]. Qed.

Lemma next_level_cases now w :
  next_level now w = SAFE \/ next_level now w = WARN
  \/ next_level now w = STOP \/ next_level now w = COMMLOSS.
Proof.
  unfold next_level. destruct (signal_lost now w).
  - destruct (failsafe_cases (last_known_zone (sys w))) as [H|H]; rewrite H; tauto.
  - destruct (classify_cases (cfg w) (safety_level (sys w)) (distance_cm (sys w)))
      as [H|[H|H]]; rewrite H; tauto.
Qed.

(** ** Failsafe policy *)

(** C1.  When the watchdog has expired, the tick sets the level to Safe
    exactly when [last_known_zone] is Safe and to CommLoss otherwise; two
    states with the same [last_known_zone] get the same level, whatever
    their distances, thresholds and clocks are. *)
Theorem failsafe_only_last_known_zone now t_log w :
  signal_lost now w = true ->
  let level := safety_level (sys (fst (checkSafetyAndRelays now t_log w))) in
  level = (if last_known_zone (sys w) =? SAFE then SAFE else COMMLOSS)
  /\ (level = SAFE <-> last_known_zone (sys w) = SAFE)
  /\ (level = COMMLOSS <-> last_known_zone (sys w) <> SAFE)
  /\ forall now2 t_log2 w2,
       signal_lost now2 w2 = true ->
       last_known_zone (sys w2) = last_known_zone (sys w) ->
       safety_level (sys (fst (checkSafetyAndRelays now2 t_log2 w2))) = level.
Proof.
  intros Hlost level. subst level. rewrite tick_level.
  unfold next_level, failsafe, SAFE, COMMLOSS. rewrite Hlost.
  repeat split.
  - destruct (Z.eqb_spec (last_known_zone (sys w)) 0); reflexivity.
  - destruct (Z.eqb_spec (last_known_zone (sys w)) 0); cbn; [tauto | discriminate].
  - destruct (Z.eqb_spec (last_known_zone (sys w)) 0); cbn; [reflexivity | tauto].
  - destruct (Z.eqb_spec (last_known_zone (sys w)) 0); cbn; [discriminate | tauto].
  - destruct (Z.eqb_spec (last_known_zone (sys w)) 0); cbn; [tauto | reflexivity].
  - intros now2 t_log2 w2 Hlost2 Heq. rewrite tick_level.
    unfold next_level, failsafe. rewrite Hlost2, Heq. reflexivity.
Qed.

Lemma failsafe_only_last_known_zone_witness :
  let w := run [Tick 500 500] (boot no_prefs) in
  signal_lost 2000 w = true
  /\ last_known_zone (sys w) = STOP
  /\ safety_level (sys (fst (checkSafetyAndRelays 2000 2000 w))) = COMMLOSS.
Proof.
  split; [reflexivity|]. split; [reflexivity|].
  apply (proj1 (failsafe_only_last_known_zone 2000 2000
                  (run [Tick 500 500] (boot no_prefs)) eq_refl)).
Defined.

(** ** Relay outputs *)

Lemma tick_relays now t_log w :
  let s' := sys (fst (checkSafetyAndRelays now t_log w)) in
  relay_red s' = (safety_level s' =? STOP)
  /\ relay_yellow s' = (safety_level s' =? WARN)
  /\ relay_green s' = (safety_level s' =? SAFE)
  /\ relay_health s' = (safety_level s' =? COMMLOSS).
Proof. unfold checkSafetyAndRelays; cbn. repeat split. Qed.

(** C2.  After every tick each relay bit is set exactly when the level is
    its own (red: Stop, yellow: Warn, green: Safe, health: CommLoss), and
    exactly one of the four is set. *)
Theorem relay_exclusive now t_log w :
  let s' := sys (fst (checkSafetyAndRelays now t_log w)) in
  (relay_red s' = true <-> safety_level s' = STOP)
  /\ (relay_yellow s' = true <-> safety_level s' = WARN)
  /\ (relay_green s' = true <-> safety_level s' = SAFE)
  /\ (relay_health s' = true <-> safety_level s' = COMMLOSS)
  /\ relays_on s' = 1%nat.
Proof.
  intros s'.
  destruct (tick_relays now t_log w) as (Hr & Hy & Hg & Hh).
  fold s' in Hr, Hy, Hg, Hh.
  unfold relays_on. rewrite Hr, Hy, Hg, Hh.
  assert (Hl : safety_level s' = next_level now w) by apply tick_level.
  rewrite !Z.eqb_eq.
  repeat split; try tauto.
  destruct (next_level_cases now w) as [H|[H|[H|H]]];
    rewrite Hl, H; reflexivity.
Qed.

(** ** Link watchdog *)

Lemma map_quality_range e :
  100 <= e <= 2000 -> 0 <= Arduino.map e 100 2000 100 0 <= 100.
Proof.
  intros He. unfold Arduino.map.
  replace ((e - 100) * (0 - 100)) with (- ((e - 100) * 100)) by ring.
  rewrite Z.quot_opp_l by lia.
  rewrite Z.quot_div_nonneg by lia.
  assert (0 <= (e - 100) * 100 / (2000 - 100) <= 100); [|lia].
  split.
  - apply Z.div_pos; lia.
  - apply Z.div_le_upper_bound; lia.
Qed.

(** C7.  The link quality a tick stores is 100 below 100 ms, 0 above
    2000 ms and [map(elapsed, 100, 2000, 100, 0)] in between; it always
    lies in [0,100], and the interpolation gives 100 at 100 ms and 0 at
    2000 ms. *)
Theorem link_quality_in_range now t_log w :
  let e := elapsed_ms now w in
  let q := link_quality_pct (sys (fst (checkSafetyAndRelays now t_log w))) in
  q = (if e <? 100 then 100
       else if 2000 <? e then 0
       else Arduino.map e 100 2000 100 0)
  /\ 0 <= q <= 100
  /\ Arduino.map 100 100 2000 100 0 = 100
  /\ Arduino.map 2000 100 2000 100 0 = 0.
Proof.
  unfold checkSafetyAndRelays; cbn. unfold calc_link_quality.
  split; [reflexivity|]. split; [|split; reflexivity].
  destruct (Z.ltb_spec (elapsed_ms now w) 100); [lia|].
  destruct (Z.ltb_spec 2000 (elapsed_ms now w)); [lia|].
  apply map_quality_range. lia.
Qed.

(** ** Relay arbiter *)

Lemma tick_bus now t_log w :
  let r := checkSafetyAndRelays now t_log w in
  snd r = (if bus_write now w then Some (coil_of_level (next_level now w)) else None)
  /\ lastCoilStatus (fst r)
     = (if bus_write now w then coil_of_level (next_level now w) else lastCoilStatus w)
  /\ lastModbusTime (fst r)
     = (if bus_write now w then now else lastModbusTime w).
Proof.
  unfold bus_write, coil_of_level. open_tick now w; repeat split.
Qed.

Lemma run_app es1 es2 w : run (es1 ++ es2) w = run es2 (run es1 w).
Proof. revert w; induction es1 as [|e es1 IH]; intros w; cbn; [reflexivity | apply IH]. Qed.

Lemma ticks_app es1 es2 w :
  ticks (es1 ++ es2) w = ticks es1 w ++ ticks es2 (run es1 w).
Proof.
  revert w; induction es1 as [|e es1 IH]; intros w; cbn; [reflexivity|].
  rewrite IH, app_assoc. reflexivity.
Qed.

Lemma writes_app es1 es2 w :
  writes (es1 ++ es2) w = writes es1 w ++ writes es2 (run es1 w).
Proof. unfold writes. rewrite ticks_app, List.map_app. reflexivity. Qed.

Lemma run_tick now t_log es w :
  run (Tick now t_log :: es) w = run es (fst (checkSafetyAndRelays now t_log w)).
Proof. reflexivity. Qed.

Lemma run_range d t es w :
  run (Range d t :: es) w = run es (uwb_range d t w).
Proof. reflexivity. Qed.

Lemma writes_tick now t_log es w :
  writes (Tick now t_log :: es) w
  = snd (checkSafetyAndRelays now t_log w)
    :: writes es (fst (checkSafetyAndRelays now t_log w)).
Proof. reflexivity. Qed.

Lemma writes_range d t es w :
  writes (Range d t :: es) w = writes es (uwb_range d t w).
Proof. reflexivity. Qed.

Lemma range_statics d t w :
  lastModbusTime (uwb_range d t w) = lastModbusTime w
  /\ lastCoilStatus (uwb_range d t w) = lastCoilStatus w.
Proof. unfold uwb_range. destruct (accepted d); split; reflexivity. Qed.

(** A run without a write leaves the time of the last write alone. *)
Lemma silent_run_keeps_time es : forall w,
  Forall (fun o => o = None) (writes es w) ->
  lastModbusTime (run es w) = lastModbusTime w.
Proof.
  induction es as [|[now t_log|d t] es IH]; intros w Hq; [reflexivity| |].
  - rewrite writes_tick in Hq. apply Forall_cons in Hq as [Hnone Hrest].
    rewrite run_tick, (IH _ Hrest).
    destruct (tick_bus now t_log w) as (Hs & _ & Ht).
    rewrite Ht. rewrite Hs in Hnone.
    destruct (bus_write now w); [discriminate | reflexivity].
  - rewrite writes_range in Hq.
    rewrite run_range, (IH _ Hq). apply range_statics.
Qed.

Lemma writes_silent_or_not (l : list (option Z)) :
  Forall (fun o => o = None) l \/ Exists is_Some l.
Proof.
  induction l as [|[c|] l IH].
  - left; constructor.
  - right; apply Exists_cons_hd; eauto.
  - destruct IH as [IH|IH].
    + left; constructor; auto.
    + right; apply Exists_cons_tl; exact IH.
Qed.

Lemma u32_add_span a b c :
  u32 (a - c) <= 500 -> 500 < u32 (b - a) < 2 ^ 32 - 500 -> 500 < u32 (b - c).
Proof.
  unfold u32. intros H1 H2.
  replace (b - c) with ((a - c) + (b - a)) by ring.
  rewrite Z.add_mod by lia.
  assert (0 <= (a - c) mod 2 ^ 32) by (apply Z.mod_pos_bound; lia).
  rewrite Z.mod_small; lia.
Qed.

(** C8.  A tick hands a coil pattern to the fieldbus exactly when the
    pattern differs from the one last written or more than 500 ms have
    passed (on the 32-bit millisecond clock) since the last write, and it
    then remembers pattern and time.  Hence every run that starts and ends
    with a tick more than 500 ms apart contains a write, whatever the level
    and the pattern do in between; the span is measured on the 32-bit
    clock, so it has to stay 500 ms short of a full turn of the clock. *)
Theorem heartbeat_resend :
  (forall now t_log w,
     let r := checkSafetyAndRelays now t_log w in
     let coil := coil_of_level (next_level now w) in
     (is_Some (snd r) <->
        coil <> lastCoilStatus w \/ 500 < u32 (now - lastModbusTime w))
     /\ (snd r = Some coil /\ lastCoilStatus (fst r) = coil
          /\ lastModbusTime (fst r) = now
        \/ snd r = None /\ lastCoilStatus (fst r) = lastCoilStatus w
          /\ lastModbusTime (fst r) = lastModbusTime w))
  /\ (forall n0 t0 mid n1 t1 w,
       500 < u32 (n1 - n0) < 2 ^ 32 - 500 ->
       Exists is_Some (writes (Tick n0 t0 :: mid ++ [Tick n1 t1]) w)).
Proof.
  split.
  - intros now t_log w r coil.
    destruct (tick_bus now t_log w) as (Hs & Hc & Ht).
    fold r in Hs, Hc, Ht. fold coil in Hs, Hc.
    assert (Hb : bus_write now w = true <->
                 coil <> lastCoilStatus w \/ 500 < u32 (now - lastModbusTime w)).
    { unfold bus_write. fold coil.
      rewrite orb_true_iff, negb_true_iff, Z.eqb_neq, Z.ltb_lt. tauto. }
    rewrite Hs, Hc, Ht. destruct (bus_write now w); split.
    + split; [intros _; apply Hb; reflexivity | eauto].
    + left. auto.
    + split; [intros [c Hc']; discriminate | intros H; apply Hb in H; discriminate].
    + right. auto.
  - intros n0 t0 mid n1 t1 w Hspan.
    change (Tick n0 t0 :: mid ++ [Tick n1 t1])
      with ((Tick n0 t0 :: mid) ++ [Tick n1 t1]).
    rewrite writes_app. apply Exists_app.
    destruct (writes_silent_or_not (writes (Tick n0 t0 :: mid) w)) as [Hq|Hex];
      [right | left; exact Hex].
    pose proof (silent_run_keeps_time _ _ Hq) as Hkeep.
    rewrite writes_tick in Hq. apply Forall_cons in Hq as [Hnone _].
    destruct (tick_bus n0 t0 w) as (Hs & _ & _). rewrite Hs in Hnone.
    set (w1 := run (Tick n0 t0 :: mid) w) in *.
    rewrite writes_tick. constructor.
    destruct (tick_bus n1 t1 w1) as (Hs1 & _ & _). rewrite Hs1.
    assert (Hb : bus_write n1 w1 = true).
    { unfold bus_write. apply orb_true_iff. right. apply Z.ltb_lt.
      rewrite Hkeep. apply (u32_add_span n0); [|exact Hspan].
      unfold bus_write in Hnone.
      destruct (500 <? u32 (n0 - lastModbusTime w)) eqn:E.
      - rewrite orb_true_r in Hnone. discriminate.
      - apply Z.ltb_ge in E. exact E. }
    rewrite Hb. eauto.
Qed.

Lemma heartbeat_resend_witness :
  let w := run [Range (F32.of_Z 480) 10000; Tick 10001 10001] (boot no_prefs) in
  500 < u32 (10700 - 10100) < 2 ^ 32 - 500
  /\ Exists is_Some
       (writes (Tick 10100 10100 :: [Range (F32.of_Z 470) 10400] ++ [Tick 10700 10700]) w).
Proof.
  split; [split; reflexivity|].
  apply (proj2 heartbeat_resend). split; reflexivity.
Defined.

(** ** Transition recorder *)

Lemma tick_stats now t_log w :
  stats (fst (checkSafetyAndRelays now t_log w))
  = fst (record_transition t_log (next_level now w) (distance_cm (sys w))
           (calc_link_quality (elapsed_ms now w))
           (stats w) (history w) (logHead w)).
Proof.
  open_tick now w; reflexivity.
Qed.

Lemma tick_log now t_log w :
  (history (fst (checkSafetyAndRelays now t_log w)),
   logHead (fst (checkSafetyAndRelays now t_log w)))
  = snd (record_transition t_log (next_level now w) (distance_cm (sys w))
           (calc_link_quality (elapsed_ms now w))
           (stats w) (history w) (logHead w)).
Proof.
  open_tick now w; now destruct (record_transition _ _ _ _ _ _ _) as [? []].
Qed.

Lemma record_same t_log level d q st h head :
  level = last_level_stats st ->
  record_transition t_log level d q st h head = (st, (h, head)).
Proof.
  intros ->. unfold record_transition. rewrite Z.eqb_refl. reflexivity.
Qed.

Lemma record_last t_log level d q st h head :
  last_level_stats (fst (record_transition t_log level d q st h head)) = level.
Proof.
  unfold record_transition.
  destruct (Z.eqb_spec level (last_level_stats st)) as [->|]; reflexivity.
Qed.

Lemma record_enter_stop t_log d q st h head :
  last_level_stats st <> STOP ->
  fst (record_transition t_log STOP d q st h head)
  = mkStatistics (u32 (red_entries st + 1)) (yellow_entries st) (comm_drops st) STOP.
Proof.
  intros Hne. unfold record_transition.
  destruct (Z.eqb_spec STOP (last_level_stats st)) as [E|_]; [congruence|].
  reflexivity.
Qed.

Lemma range_record d t w :
  stats (uwb_range d t w) = stats w
  /\ history (uwb_range d t w) = history w
  /\ logHead (uwb_range d t w) = logHead w.
Proof. unfold uwb_range. destruct (accepted d); repeat split. Qed.

Lemma ticks_tick now t_log es w :
  ticks (Tick now t_log :: es) w
  = checkSafetyAndRelays now t_log w
    :: ticks es (fst (checkSafetyAndRelays now t_log w)).
Proof.
  cbn [ticks step List.map app fst snd].
  destruct (checkSafetyAndRelays now t_log w); reflexivity.
Qed.

Lemma ticks_range d t es w :
  ticks (Range d t :: es) w = ticks es (uwb_range d t w).
Proof. reflexivity. Qed.

Lemma levels_tick now t_log es w :
  levels (Tick now t_log :: es) w
  = next_level now w :: levels es (fst (checkSafetyAndRelays now t_log w)).
Proof. unfold levels. rewrite ticks_tick. cbn [List.map]. rewrite tick_level. reflexivity. Qed.

Lemma levels_range d t es w :
  levels (Range d t :: es) w = levels es (uwb_range d t w).
Proof. reflexivity. Qed.

(** Dwelling: while the computed level equals the recorded one, nothing is
    counted and nothing is logged. *)
(** Dwelling: while the computed level equals the recorded one, nothing is
    counted and nothing is logged. *)
Lemma dwelling_tick now t_log w :
  next_level now w = last_level_stats (stats w) ->
  let w' := fst (checkSafetyAndRelays now t_log w) in
  stats w' = stats w /\ history w' = history w /\ logHead w' = logHead w.
Proof.
  intros Hsame w'. subst w'.
  pose proof (tick_stats now t_log w) as Hs.
  pose proof (tick_log now t_log w) as Hl.
  rewrite (record_same _ _ _ _ _ _ _ Hsame) in Hs, Hl.
  cbn [fst snd] in Hs, Hl.
  split; [exact Hs|]. split; [exact (f_equal fst Hl) | exact (f_equal snd Hl)].
Qed.

Lemma dwelling_run es : forall w,
  Forall (fun l => l = last_level_stats (stats w)) (levels es w) ->
  Forall (fun r => stats (fst r) = stats w /\ history (fst r) = history w
                   /\ logHead (fst r) = logHead w) (ticks es w).
Proof.
  induction es as [|[now t_log|d t] es IH]; intros w Hl; [constructor| |].
  - rewrite levels_tick in Hl. apply Forall_cons in Hl as [Hnow Hrest].
    rewrite ticks_tick.
    pose proof (dwelling_tick now t_log w Hnow) as (Hs & Hh & Hd).
    apply Forall_cons. split; [auto|].
    rewrite <- Hs, <- Hh, <- Hd. apply IH. rewrite Hs. exact Hrest.
  - rewrite levels_range in Hl. rewrite ticks_range.
    destruct (range_record d t w) as (Hs & Hh & Hd).
    rewrite <- Hs, <- Hh, <- Hd. apply IH. rewrite Hs. exact Hl.
Qed.

(** C6.  Counting and logging are edge-triggered.  (1) After every tick
    [last_level_stats] is the current level.  (2) A tick whose level is the
    recorded one changes no counter, no log entry and not the log head.
    (3) So does every tick of a run whose computed level stays the recorded
    one.  (4) In a run that begins with a tick and whose computed level is
    Stop throughout, entered from another recorded level, the Stop counter
    is one more than before after the first tick and after every later
    one, and the two other counters never move. *)
Theorem edge_triggered_counting :
  (forall now t_log w,
     let w' := fst (checkSafetyAndRelays now t_log w) in
     last_level_stats (stats w') = safety_level (sys w'))
  /\ (forall now t_log w,
        let w' := fst (checkSafetyAndRelays now t_log w) in
        safety_level (sys w') = last_level_stats (stats w) ->
        stats w' = stats w /\ history w' = history w /\ logHead w' = logHead w)
  /\ (forall es w,
        Forall (fun l => l = last_level_stats (stats w)) (levels es w) ->
        Forall (fun r => stats (fst r) = stats w /\ history (fst r) = history w
                         /\ logHead (fst r) = logHead w) (ticks es w))
  /\ (forall now t_log es w,
        last_level_stats (stats w) <> STOP ->
        Forall (fun l => l = STOP) (levels (Tick now t_log :: es) w) ->
        Forall (fun r =>
                  red_entries (stats (fst r)) = u32 (red_entries (stats w) + 1)
                  /\ yellow_entries (stats (fst r)) = yellow_entries (stats w)
                  /\ comm_drops (stats (fst r)) = comm_drops (stats w)
                  /\ last_level_stats (stats (fst r)) = STOP)
          (ticks (Tick now t_log :: es) w)).
Proof.
  split; [|split; [|split]].
  - intros now t_log w w'. subst w'.
    rewrite tick_stats, record_last, tick_level. reflexivity.
  - intros now t_log w w' Hsame. subst w'. rewrite tick_level in Hsame.
    apply dwelling_tick. exact Hsame.
  - exact dwelling_run.
  - intros now t_log es w Hne Hl.
    rewrite levels_tick in Hl. apply Forall_cons in Hl as [Hnow Hrest].
    rewrite ticks_tick.
    pose proof (tick_stats now t_log w) as Hs.
    rewrite Hnow, (record_enter_stop _ _ _ _ _ _ Hne) in Hs.
    set (w1 := fst (checkSafetyAndRelays now t_log w)) in *.
    apply Forall_cons. split; [cbv beta; fold w1; rewrite Hs; cbn; auto|].
    assert (Hdw : Forall (fun l => l = last_level_stats (stats w1)) (levels es w1)).
    { rewrite Hs. exact Hrest. }
    apply dwelling_run in Hdw. eapply Forall_impl; [exact Hdw|].
    intros r (Hr & _ & _). rewrite Hr, Hs. cbn. auto.
Qed.

Lemma edge_triggered_counting_witness :
  let w := boot no_prefs in
  let es := [Range (F32.of_Z 480) 10000; Tick 10001 10001] in
  let held := [Tick 10050 10050; Tick 10100 10100; Tick 10150 10150] in
  Forall (fun l => l = last_level_stats (stats (run es w))) (levels held (run es w))
  /\ last_level_stats (stats w) <> STOP
  /\ Forall (fun l => l = STOP)
       (levels (Tick 10001 10001 :: held) (uwb_range (F32.of_Z 480) 10000 w))
  /\ Forall (fun r => red_entries (stats (fst r)) = 1)
       (ticks (Tick 10001 10001 :: held) (uwb_range (F32.of_Z 480) 10000 w))
  /\ Forall (fun r => history (fst r) = history (run es w))
       (ticks held (run es w)).
Proof.
  assert (H1 : Forall (fun l => l = last_level_stats (stats (run
              [Range (F32.of_Z 480) 10000; Tick 10001 10001] (boot no_prefs))))
            (levels [Tick 10050 10050; Tick 10100 10100; Tick 10150 10150]
               (run [Range (F32.of_Z 480) 10000; Tick 10001 10001] (boot no_prefs)))).
  { vm_compute. repeat constructor. }
  assert (H2 : last_level_stats (stats (boot no_prefs)) <> STOP) by discriminate.
  assert (H3 : Forall (fun l => l = STOP)
            (levels (Tick 10001 10001
                     :: [Tick 10050 10050; Tick 10100 10100; Tick 10150 10150])
               (uwb_range (F32.of_Z 480) 10000 (boot no_prefs)))).
  { vm_compute. repeat constructor. }
  cbv zeta. split; [exact H1|]. split; [exact H2|]. split; [exact H3|]. split.
  - eapply Forall_impl;
      [exact (proj2 (proj2 (proj2 edge_triggered_counting)) 10001 10001
                [Tick 10050 10050; Tick 10100 10100; Tick 10150 10150]
                (uwb_range (F32.of_Z 480) 10000 (boot no_prefs)) H2 H3)|].
    intros r (Hr & _). rewrite Hr. reflexivity.
  - eapply Forall_impl;
      [exact (proj1 (proj2 (proj2 edge_triggered_counting))
                [Tick 10050 10050; Tick 10100 10100; Tick 10150 10150]
                (run [Range (F32.of_Z 480) 10000; Tick 10001 10001] (boot no_prefs))
                H1)|].
    intros r (_ & Hr & _). exact Hr.
Defined.

(** ** Before the first sample *)

Lemma tick_lost_sys now t_log w :
  signal_lost now w = true ->
  let s' := sys (fst (checkSafetyAndRelays now t_log w)) in
  status_msg s' = snd (failsafe (last_known_zone (sys w)))
  /\ last_known_zone s' = last_known_zone (sys w)
  /\ last_packet_ms s' = last_packet_ms (sys w)
  /\ distance_cm s' = distance_cm (sys w).
Proof.
  intros Hlost. unfold checkSafetyAndRelays; cbn. rewrite Hlost; cbn. auto.
Qed.

Lemma tick_green now t_log w :
  relay_green (sys (fst (checkSafetyAndRelays now t_log w)))
  = (next_level now w =? SAFE).
Proof.
  open_tick now w; reflexivity.
Qed.

Lemma quiet_same_clock w1 w2 e :
  last_packet_ms (sys w1) = last_packet_ms (sys w2) -> quiet w1 e = quiet w2 e.
Proof.
  intros H. destruct e; [|reflexivity].
  unfold quiet, signal_lost, elapsed_ms. rewrite H. reflexivity.
Qed.

Lemma quiet_all_same_clock w1 w2 es :
  last_packet_ms (sys w1) = last_packet_ms (sys w2) ->
  forallb (quiet w1) es = forallb (quiet w2) es.
Proof.
  intros H. induction es as [|e es IH]; [reflexivity|].
  cbn [forallb]. rewrite IH, (quiet_same_clock w1 w2 e H). reflexivity.
Qed.

Lemma range_dropped d t w : accepted d = false -> uwb_range d t w = w.
Proof. unfold uwb_range. intros ->. reflexivity. Qed.

Lemma quiet_run_safe es : forall w,
  last_known_zone (sys w) = SAFE ->
  forallb (quiet w) es = true ->
  Forall (fun r => safety_level (sys (fst r)) = SAFE
                   /\ status_msg (sys (fst r)) = "SAFE (NO LINK)"
                   /\ last_known_zone (sys (fst r)) = SAFE
                   /\ relay_green (sys (fst r)) = true) (ticks es w).
Proof.
  induction es as [|[now t_log|d t] es IH]; intros w Hz Hq; [constructor| |].
  - cbn [forallb quiet] in Hq. apply andb_true_iff in Hq as [Hlost Hq].
    rewrite ticks_tick.
    pose proof (tick_lost_sys now t_log w Hlost) as (Hm & Hk & Hp & _).
    pose proof (tick_level now t_log w) as Hl.
    pose proof (tick_green now t_log w) as Hg.
    unfold next_level in Hl, Hg. rewrite Hlost, Hz in Hl, Hg.
    rewrite Hz in Hm, Hk. cbn in Hl, Hm, Hg.
    apply Forall_cons. split.
    + cbv beta. rewrite Hl, Hm, Hk, Hg. repeat split.
    + apply IH; [exact Hk|].
      rewrite (quiet_all_same_clock _ w es Hp). exact Hq.
  - cbn [forallb quiet] in Hq. apply andb_true_iff in Hq as [Hdrop Hq].
    apply negb_true_iff in Hdrop.
    rewrite ticks_range, (range_dropped _ _ _ Hdrop). apply IH; assumption.
Qed.

(** C9 as stated fails: that no sample was accepted does not keep
    [last_known_zone] at its initial value.  [last_packet_ms] starts at 0,
    so a tick whose clock reads 500 (after a turn of the 32-bit clock)
    finds the link alive, classifies the stored distance 0 as Stop and
    sets [last_known_zone] to Stop; the tick at 2000 then finds the link
    lost and gives CommLoss, not Safe, although no frame ever arrived. *)
Lemma unsampled_is_not_always_safe :
  ~ (forall es now t_log,
       no_sample es = true ->
       signal_lost now (run es (boot no_prefs)) = true ->
       last_known_zone (sys (run es (boot no_prefs))) = SAFE
       /\ safety_level
            (sys (fst (checkSafetyAndRelays now t_log (run es (boot no_prefs)))))
          = SAFE).
Proof.
  intros H.
  destruct (H [Tick 8000 8000; Tick 500 500] 2000 2000 eq_refl eq_refl) as [H1 _].
  vm_compute in H1. discriminate.
Qed.

(** C9, amended.  At start [last_known_zone] is 0, which is Safe, no
    distance is stored and the time of the last sample is 0.  A tick that
    finds the link lost while [last_known_zone] is Safe gives level Safe
    with the message "SAFE (NO LINK)", not CommLoss.  So as long as no
    frame has been accepted and every tick has found the link lost, every
    tick since the start has left the level at Safe with that message. *)
Theorem never_sampled_is_safe :
  (forall p, last_known_zone (sys (boot p)) = SAFE
             /\ distance_cm (sys (boot p)) = F32.zero
             /\ last_packet_ms (sys (boot p)) = 0)
  /\ (forall now t_log w,
        last_known_zone (sys w) = SAFE ->
        signal_lost now w = true ->
        let s' := sys (fst (checkSafetyAndRelays now t_log w)) in
        safety_level s' = SAFE /\ safety_level s' <> COMMLOSS
        /\ status_msg s' = "SAFE (NO LINK)" /\ last_known_zone s' = SAFE)
  /\ (forall p es,
        forallb (quiet (boot p)) es = true ->
        Forall (fun r => safety_level (sys (fst r)) = SAFE
                         /\ status_msg (sys (fst r)) = "SAFE (NO LINK)"
                         /\ last_known_zone (sys (fst r)) = SAFE
                         /\ relay_green (sys (fst r)) = true)
          (ticks es (boot p))).
Proof.
  split; [|split].
  - intros p. repeat split.
  - intros now t_log w Hz Hlost s'. subst s'.
    pose proof (tick_lost_sys now t_log w Hlost) as (Hm & Hk & _).
    pose proof (tick_level now t_log w) as Hl.
    unfold next_level in Hl. rewrite Hlost, Hz in Hl.
    rewrite Hz in Hm, Hk. cbn in Hl, Hm.
    rewrite Hl, Hm, Hk. repeat split. discriminate.
  - intros p es Hq. apply quiet_run_safe; [reflexivity | exact Hq].
Qed.

Lemma never_sampled_is_safe_witness :
  let w := boot no_prefs in
  let es := [Tick 8000 8000; Range (S754_zero false) 8100; Tick 8200 8200;
             Tick 60000 60000] in
  last_known_zone (sys w) = SAFE
  /\ signal_lost 8000 w = true
  /\ status_msg (sys (fst (checkSafetyAndRelays 8000 8000 w))) = "SAFE (NO LINK)"
  /\ forallb (quiet w) es = true
  /\ Forall (fun r => safety_level (sys (fst r)) = SAFE
                      /\ status_msg (sys (fst r)) = "SAFE (NO LINK)"
                      /\ last_known_zone (sys (fst r)) = SAFE
                      /\ relay_green (sys (fst r)) = true) (ticks es w).
Proof.
  cbv zeta. split; [reflexivity|]. split; [reflexivity|]. split; [|split].
  - exact (proj1 (proj2 (proj2 (proj1 (proj2 never_sampled_is_safe) 8000 8000
                                   (boot no_prefs) eq_refl eq_refl)))).
  - reflexivity.
  - apply (proj2 (proj2 never_sampled_is_safe)). reflexivity.
Defined.

(** ** What the readers expose *)

Lemma live_hist_positive h x :
  In x (live_hist h) -> f_gt (distance x) (F32.of_Z 0) = true.
Proof. unfold live_hist. intros H. apply List.filter_In in H. tauto. Qed.

Lemma csv_rows_nonzero h x :
  In x (csv_rows h) -> f_ne (distance x) (F32.of_Z 0) = true.
Proof. unfold csv_rows. intros H. apply List.filter_In in H. tauto. Qed.

(** C10.  A tick that turns the level to CommLoss while no sample was ever
    accepted ([distance_cm] still 0) counts the drop and writes an entry
    "LOSS" with distance 0 into the slot at [logHead]; no buffer content
    makes [/live] or [/download_csv] show an entry with distance 0, so this
    one is in neither. *)
Theorem commloss_before_sample_hidden now t_log w :
  distance_cm (sys w) = F32.zero ->
  signal_lost now w = true ->
  last_known_zone (sys w) <> SAFE ->
  last_level_stats (stats w) <> COMMLOSS ->
  let w' := fst (checkSafetyAndRelays now t_log w) in
  let e := mkEventLog (substring 0 15 (getUptimeStr t_log)) F32.zero "LOSS"
             (calc_link_quality (elapsed_ms now w)) in
  safety_level (sys w') = COMMLOSS
  /\ comm_drops (stats w') = u32 (comm_drops (stats w) + 1)
  /\ history w' = <[Z.to_nat (logHead w) := e]> (history w)
  /\ logHead w' = (if MAX_LOG_EVENTS <=? logHead w + 1 then 0 else logHead w + 1)
  /\ (forall h, ~ In e (live_hist h))
  /\ (forall h, ~ In e (csv_rows h))
  /\ (forall h x, In x (live_hist h) \/ In x (csv_rows h) ->
                  distance x <> F32.zero).
Proof.
  intros Hd Hlost Hz Hrec w' e. subst w'.
  assert (Hl : next_level now w = COMMLOSS).
  { unfold next_level, failsafe. rewrite Hlost.
    destruct (Z.eqb_spec (last_known_zone (sys w)) 0); [contradiction | reflexivity]. }
  pose proof (tick_stats now t_log w) as Hs.
  pose proof (tick_log now t_log w) as Hlog.
  rewrite Hl, Hd in Hs, Hlog. unfold record_transition in Hs, Hlog.
  destruct (Z.eqb_spec COMMLOSS (last_level_stats (stats w))) as [E|_];
    [congruence|].
  cbn in Hs, Hlog. fold e in Hlog.
  rewrite tick_level, Hl, Hs. cbn [comm_drops].
  split; [reflexivity|]. split; [reflexivity|].
  split; [exact (f_equal fst Hlog)|]. split; [exact (f_equal snd Hlog)|].
  split; [|split].
  - intros h Hin. apply live_hist_positive in Hin. discriminate.
  - intros h Hin. apply csv_rows_nonzero in Hin. discriminate.
  - intros h x [Hin|Hin] Hx.
    + apply live_hist_positive in Hin. rewrite Hx in Hin. discriminate.
    + apply csv_rows_nonzero in Hin. rewrite Hx in Hin. discriminate.
Qed.

(** The premises are met when the millisecond clock wraps before any
    sample: [last_packet_ms] is still 0, so a tick at clock 500 finds the
    link alive, classifies the stored distance 0 as Stop, and the next tick
    after the timeout turns that into CommLoss. *)
Lemma commloss_before_sample_hidden_witness :
  let w := run [Tick 8000 8000; Tick 500 500] (boot no_prefs) in
  let w' := fst (checkSafetyAndRelays 2000 2000 w) in
  distance_cm (sys w) = F32.zero
  /\ signal_lost 2000 w = true
  /\ last_known_zone (sys w) <> SAFE
  /\ last_level_stats (stats w) <> COMMLOSS
  /\ safety_level (sys w') = COMMLOSS
  /\ comm_drops (stats w') = 1
  /\ zone <$> history w' !! 0%nat = Some "LOSS"
  /\ live_hist (history w') = []
  /\ csv_rows (history w') = [].
Proof.
  assert (Hz : last_known_zone (sys (run [Tick 8000 8000; Tick 500 500]
                                       (boot no_prefs))) <> SAFE)
    by discriminate.
  assert (Hr : last_level_stats (stats (run [Tick 8000 8000; Tick 500 500]
                                          (boot no_prefs))) <> COMMLOSS)
    by discriminate.
  pose proof (commloss_before_sample_hidden 2000 2000
                (run [Tick 8000 8000; Tick 500 500] (boot no_prefs))
                eq_refl eq_refl Hz Hr)
    as (H1 & H2 & H3 & _).
  cbv zeta. split; [reflexivity|]. split; [reflexivity|].
  split; [exact Hz|]. split; [exact Hr|]. split; [exact H1|].
  split; [rewrite H2; reflexivity|].
  split; [rewrite H3; reflexivity|]. split; reflexivity.
Defined.

(** ** Zone classifier *)

(** At the default thresholds the margin is 20 cm. *)
Lemma eff_limit_defaults :
  eff_limit (F32.of_Z 500) true = F32.of_Z 520
  /\ eff_limit (F32.of_Z 1500) true = F32.of_Z 1520
  /\ eff_limit (F32.of_Z 500) false = F32.of_Z 500
  /\ eff_limit (F32.of_Z 1500) false = F32.of_Z 1500.
Proof. repeat split. Qed.

Lemma tick_level_alive now t_log w :
  signal_lost now w = false ->
  safety_level (sys (fst (checkSafetyAndRelays now t_log w)))
  = fst (classify (cfg w) (safety_level (sys w)) (distance_cm (sys w))).
Proof. intros H. rewrite tick_level. unfold next_level. rewrite H. reflexivity. Qed.




(** ** The worked example *)

(** C4 as stated fails: 600 cm lies between the two thresholds, so the
    first tick gives Warn, not Safe, and 1600 cm lies above both, so the
    last tick gives Safe, not Warn; three entries are logged, not two. *)
Lemma example_is_not_safe_stop_stop_warn :
  ~ (levels example_run (boot no_prefs) = [SAFE; STOP; STOP; WARN]
     /\ length (shown_zones (run example_run (boot no_prefs))) = 2%nat).
Proof. intros [H _]. vm_compute in H. discriminate. Qed.

(** C4, amended.  With thresholds 500 and 1500, the link alive at every
    tick and the level Safe at the start, the distances 600, 480, 520, 1600
    give the levels Warn, Stop, Stop (the margin holds 520), Safe.  The log
    gains three entries, "WARN" at step 1, "DANGER" at step 2 and "SAFE" at
    step 4; afterwards the Stop counter and the Warn counter are both 1 and
    no drop was counted. *)
Theorem example_levels_and_log :
  let w0 := boot no_prefs in
  limit_stop_cm (cfg w0) = F32.of_Z 500
  /\ limit_warn_cm (cfg w0) = F32.of_Z 1500
  /\ safety_level (sys w0) = SAFE
  /\ lost_flags example_run w0 = [false; false; false; false]
  /\ levels example_run w0 = [WARN; STOP; STOP; SAFE]
  /\ List.map (fun r => shown_zones (fst r)) (ticks example_run w0)
     = [["WARN"]; ["WARN"; "DANGER"]; ["WARN"; "DANGER"];
        ["WARN"; "DANGER"; "SAFE"]]
  /\ List.map distance (live_hist (history (run example_run w0)))
     = [F32.of_Z 600; F32.of_Z 480; F32.of_Z 1600]
  /\ csv_rows (history (run example_run w0))
     = live_hist (history (run example_run w0))
  /\ logHead (run example_run w0) = 3
  /\ red_entries (stats (run example_run w0)) = 1
  /\ yellow_entries (stats (run example_run w0)) = 1
  /\ comm_drops (stats (run example_run w0)) = 0.
Proof. vm_compute. repeat split. Qed.

(** ** Saving the configuration *)

Lemma validated_not_below_floor v dflt :
  f_lt dflt (F32.of_Z 50) = false ->
  f_lt (if f_lt v (F32.of_Z 50) then dflt else v) (F32.of_Z 50) = false.
Proof. intros Hd. destruct (f_lt v (F32.of_Z 50)) eqn:E; assumption. Qed.

(** [/save] puts the posted values into [cfg] as they are: the thresholds
    the evaluation loop reads after a post are not always at or above the
    floor. *)
Lemma save_does_not_validate :
  ~ (forall stop warn w p,
       f_lt (limit_stop_cm (cfg (fst (save stop warn w p)))) (F32.of_Z 50) = false
       /\ f_lt (limit_warn_cm (cfg (fst (save stop warn w p)))) (F32.of_Z 50) = false).
Proof.
  intros H.
  destruct (H (Some (F32.of_Z 10)) (Some (F32.of_Z 20)) (boot no_prefs) no_prefs)
    as [H1 _].
  vm_compute in H1. discriminate.
Qed.

(** What the restart puts right: [/save] stores the values it is given,
    and the start that follows reads them back through [loadConfig], which
    applies the floor rule: a value below 50 is replaced by its default
    (500 for stop, 1500 for warn), any other value is kept, so after the
    restart no threshold is below the floor. *)
Theorem save_validated_by_restart stop warn w p :
  let given_stop := default (limit_stop_cm (cfg w)) stop in
  let given_warn := default (limit_warn_cm (cfg w)) warn in
  let r := save_and_restart stop warn w p in
  nvs_stop (snd r) = Some given_stop
  /\ nvs_warn (snd r) = Some given_warn
  /\ fst r = boot (snd r)
  /\ cfg (fst r) = loadConfig (snd r)
  /\ limit_stop_cm (cfg (fst r))
     = (if f_lt given_stop (F32.of_Z 50) then F32.of_Z 500 else given_stop)
  /\ limit_warn_cm (cfg (fst r))
     = (if f_lt given_warn (F32.of_Z 50) then F32.of_Z 1500 else given_warn)
  /\ f_lt (limit_stop_cm (cfg (fst r))) (F32.of_Z 50) = false
  /\ f_lt (limit_warn_cm (cfg (fst r))) (F32.of_Z 50) = false.
Proof.
  cbv zeta.
  assert (Hs : nvs_stop (snd (save_and_restart stop warn w p))
               = Some (default (limit_stop_cm (cfg w)) stop))
    by (destruct stop, warn; reflexivity).
  assert (Hw : nvs_warn (snd (save_and_restart stop warn w p))
               = Some (default (limit_warn_cm (cfg w)) warn))
    by (destruct stop, warn; reflexivity).
  assert (Hc : cfg (fst (save_and_restart stop warn w p))
               = loadConfig (snd (save_and_restart stop warn w p))) by reflexivity.
  split; [exact Hs|]. split; [exact Hw|]. split; [reflexivity|].
  split; [exact Hc|].
  rewrite Hc. unfold loadConfig. rewrite Hs, Hw. cbn [default limit_stop_cm limit_warn_cm].
  split; [reflexivity|]. split; [reflexivity|].
  split; apply validated_not_below_floor; reflexivity.
Qed.

(** C5.  The code at the failing input.  [/save] is posted 10 and 20 on a
    freshly started device.  Until [ESP.restart()] is reached, [cfg] holds
    10 and 20, both below the floor the sanity check of [loadConfig]
    enforces, and a tick classifies a sample of 30 cm as Safe with the
    green relay on.  After the restart the thresholds are the defaults 500
    and 1500, and the same sample is Stop. *)
Theorem save_takes_effect_unchecked :
  limit_stop_cm (cfg posted_low) = F32.of_Z 10
  /\ limit_warn_cm (cfg posted_low) = F32.of_Z 20
  /\ f_lt (limit_stop_cm (cfg posted_low)) (F32.of_Z 50) = true
  /\ f_lt (limit_warn_cm (cfg posted_low)) (F32.of_Z 50) = true
  /\ signal_lost 10101 posted_low = false
  /\ safety_level (sys (fst (checkSafetyAndRelays 10101 10101 posted_low))) = SAFE
  /\ relay_green (sys (fst (checkSafetyAndRelays 10101 10101 posted_low))) = true
  /\ limit_stop_cm (cfg posted_low_restarted) = F32.of_Z 500
  /\ limit_warn_cm (cfg posted_low_restarted) = F32.of_Z 1500
  /\ safety_level (sys (fst (checkSafetyAndRelays 10101 10101 posted_low_restarted)))
     = STOP.
Proof. vm_compute. repeat split. Qed.

(** * Further properties *)

(** ** The ring buffer *)

Lemma logEvent_entry millis dist zoneName quality h head :
  logEvent millis dist zoneName quality h head
  = (<[Z.to_nat head := entry_of (millis, dist, zoneName, quality)]> h,
     if MAX_LOG_EVENTS <=? head + 1 then 0 else head + 1).
Proof. reflexivity. Qed.

Lemma head_next_mod head :
  0 <= head < 50 ->
  (if MAX_LOG_EVENTS <=? head + 1 then 0 else head + 1) = (head + 1) mod 50.
Proof.
  intros Hh. unfold MAX_LOG_EVENTS. destruct (Z.leb_spec 50 (head + 1)).
  - replace head with 49 by lia. reflexivity.
  - rewrite Z.mod_small by lia. reflexivity.
Qed.

(** X1.  One call of [logEvent] on a buffer of 50 slots with the head in
    range: the buffer keeps its 50 slots, the entry sits at the old head,
    every other slot is as before, and the head moves on by one, back to 0
    after slot 49. *)
Theorem logEvent_step millis dist zoneName quality h head :
  length h = 50%nat -> 0 <= head < 50 ->
  let r := logEvent millis dist zoneName quality h head in
  length (fst r) = 50%nat
  /\ fst r !! Z.to_nat head = Some (entry_of (millis, dist, zoneName, quality))
  /\ (forall k, k <> Z.to_nat head -> fst r !! k = h !! k)
  /\ snd r = (head + 1) mod 50
  /\ 0 <= snd r < 50
  /\ (head = 49 -> snd r = 0).
Proof.
  intros Hlen Hhead r. subst r. rewrite logEvent_entry. cbn [fst snd].
  split; [rewrite length_insert; exact Hlen|].
  split; [apply list_lookup_insert_eq; lia|].
  split; [intros k Hk; apply list_lookup_insert_ne; congruence|].
  rewrite (head_next_mod head Hhead).
  split; [reflexivity|].
  split; [apply Z.mod_pos_bound; lia|].
  intros ->. reflexivity.
Qed.

Lemma logEvent_step_witness :
  let r := logEvent 3725123 (F32.of_Z 480) "DANGER" 100 history0 49 in
  length history0 = 50%nat /\ 0 <= 49 < 50
  /\ snd r = 0
  /\ timestamp <$> fst r !! Z.to_nat 49 = Some "01:02:05".
Proof.
  cbv zeta. split; [reflexivity|]. split; [lia|].
  pose proof (logEvent_step 3725123 (F32.of_Z 480) "DANGER" 100 history0 49
                eq_refl ltac:(lia)) as (_ & H2 & _ & _ & _ & H6).
  split; [apply H6; reflexivity|]. rewrite H2. reflexivity.
Defined.

Lemma log_events_cons a rest h head :
  log_events (a :: rest) h head
  = log_events rest (<[Z.to_nat head := entry_of a]> h)
      (if MAX_LOG_EVENTS <=? head + 1 then 0 else head + 1).
Proof. destruct a as [[[m d] z] q]. reflexivity. Qed.

(** X2.  Up to 50 consecutive calls of [logEvent] lose nothing: the i-th
    entry sits i slots after the old head (modulo 50), the slots further on
    are as before, and the head has moved by the number of calls. *)
Theorem ring_keeps_last_entries args : forall h head,
  length h = 50%nat -> 0 <= head < 50 -> (length args <= 50)%nat ->
  let r := log_events args h head in
  length (fst r) = 50%nat
  /\ snd r = (head + Z.of_nat (length args)) mod 50
  /\ forall k, (k < 50)%nat ->
       fst r !! k
       = (let off := (Z.of_nat k - head) mod 50 in
          if off <? Z.of_nat (length args)
          then entry_of <$> args !! Z.to_nat off
          else h !! k).
Proof.
  induction args as [|a rest IH]; intros h head Hlen Hhead Hn.
  - cbn. split; [exact Hlen|]. split; [rewrite Z.add_0_r, Z.mod_small; lia|].
    intros k Hk.
    destruct (_ <? _) eqn:E; [|reflexivity].
    apply Z.ltb_lt in E.
    pose proof (Z.mod_pos_bound (Z.of_nat k - head) 50). cbn in E. lia.
  - cbn [length] in Hn. cbv zeta. rewrite log_events_cons.
    set (head1 := if MAX_LOG_EVENTS <=? head + 1 then 0 else head + 1).
    assert (Hhead1 : 0 <= head1 < 50 /\ head1 = (head + 1) mod 50).
    { subst head1. unfold MAX_LOG_EVENTS. destruct (Z.leb_spec 50 (head + 1)).
      - replace head with 49 by lia. split; [lia | reflexivity].
      - rewrite Z.mod_small by lia. lia. }
    destruct Hhead1 as [Hr1 Hm1].
    specialize (IH (<[Z.to_nat head := entry_of a]> h) head1).
    rewrite length_insert in IH.
    specialize (IH Hlen Hr1 ltac:(lia)). cbv zeta in IH.
    destruct IH as (IH1 & IH2 & IH3).
    split; [exact IH1|]. split.
    + rewrite IH2, Hm1. cbn [length]. rewrite Zplus_mod_idemp_l. f_equal. lia.
    + intros k Hk. rewrite (IH3 k Hk). cbn [length].
      set (off := (Z.of_nat k - head) mod 50).
      set (off1 := (Z.of_nat k - head1) mod 50).
      assert (Hoff : 0 <= off < 50) by (apply Z.mod_pos_bound; lia).
      assert (Hrel : (off = 0 /\ off1 = 49 /\ k = Z.to_nat head)
                     \/ (0 < off /\ off1 = off - 1 /\ k <> Z.to_nat head)).
      { subst off off1. rewrite Hm1.
        destruct (Z.eq_dec (Z.of_nat k) head) as [E|E].
        - left. rewrite E, Z.sub_diag.
          replace (head - (head + 1) mod 50) with
            (if Z.eq_dec head 49 then 49 else -1).
          + destruct (Z.eq_dec head 49); repeat split; try reflexivity; lia.
          + destruct (Z.eq_dec head 49) as [->|]; [reflexivity|].
            rewrite Z.mod_small by lia. lia.
        - right.
          destruct (Z.eq_dec head 49) as [->|Hne].
          + change ((49 + 1) mod 50) with 0.
            rewrite Z.sub_0_r, (Z.mod_small (Z.of_nat k)) by lia.
            replace (Z.of_nat k - 49) with (Z.of_nat k + 1 + (-1) * 50) by lia.
            rewrite Z.mod_add, Z.mod_small by lia. lia.
          + rewrite (Z.mod_small (head + 1)) by lia.
            destruct (Z_lt_le_dec (Z.of_nat k) head).
            * replace (Z.of_nat k - head) with (Z.of_nat k - head + 50 + (-1) * 50) by lia.
              replace (Z.of_nat k - (head + 1)) with (Z.of_nat k - head + 49 + (-1) * 50) by lia.
              rewrite !Z.mod_add, !Z.mod_small by lia. lia.
            * rewrite !Z.mod_small by lia. lia. }
      destruct Hrel as [(H0 & H1 & Hk0) | (H0 & H1 & Hk0)].
      * rewrite H0, H1.
        destruct (Z.ltb_spec 49 (Z.of_nat (length rest))); [lia|].
        destruct (Z.ltb_spec 0 (Z.of_nat (S (length rest)))); [|lia].
        rewrite Hk0. cbn. apply list_lookup_insert_eq. lia.
      * rewrite H1.
        destruct (Z.ltb_spec (off - 1) (Z.of_nat (length rest)));
          destruct (Z.ltb_spec off (Z.of_nat (S (length rest)))); try lia.
        -- replace (Z.to_nat off) with (S (Z.to_nat (off - 1))) by lia.
           reflexivity.
        -- apply list_lookup_insert_ne. congruence.
Qed.

Lemma ring_keeps_last_entries_witness :
  let args := [(1000, F32.of_Z 600, "WARN", 100); (2000, F32.of_Z 480, "DANGER", 90);
               (3000, F32.of_Z 1600, "SAFE", 80)] in
  let r := log_events args history0 48 in
  length history0 = 50%nat /\ 0 <= 48 < 50 /\ (length args <= 50)%nat
  /\ snd r = 1
  /\ zone <$> fst r !! 48%nat = Some "WARN"
  /\ zone <$> fst r !! 49%nat = Some "DANGER"
  /\ zone <$> fst r !! 0%nat = Some "SAFE"
  /\ fst r !! 1%nat = history0 !! 1%nat.
Proof.
  cbv zeta. split; [reflexivity|]. split; [lia|]. split; [cbn; lia|].
  pose proof (ring_keeps_last_entries
                [(1000, F32.of_Z 600, "WARN", 100); (2000, F32.of_Z 480, "DANGER", 90);
                 (3000, F32.of_Z 1600, "SAFE", 80)] history0 48
                eq_refl ltac:(lia) ltac:(cbn; lia)) as (_ & H2 & H3).
  split; [rewrite H2; reflexivity|].
  rewrite (H3 48%nat), (H3 49%nat), (H3 0%nat), (H3 1%nat) by lia.
  repeat split.
Defined.

(** ** Timestamps *)

Lemma forall_below (P : Z -> bool) (n : nat) :
  forallb P (List.map Z.of_nat (seq 0 n)) = true ->
  forall z, 0 <= z < Z.of_nat n -> P z = true.
Proof.
  intros H z Hz. rewrite forallb_forall in H. apply H.
  apply in_map_iff. exists (Z.to_nat z). split; [lia|].
  apply in_seq. lia.
Qed.

Lemma pad2_two z : 0 <= z < 60 -> String.length (pad2 z) = 2%nat.
Proof.
  intros Hz.
  apply Nat.eqb_eq.
  apply (forall_below (fun z => Nat.eqb (String.length (pad2 z)) 2) 60); [|lia].
  vm_compute. reflexivity.
Qed.

Lemma pad2_hours z : 0 <= z < 1194 ->
  (2 <= String.length (pad2 z) <= 4)%nat.
Proof.
  intros Hz.
  assert (H : (2 <=? String.length (pad2 z))%nat && (String.length (pad2 z) <=? 4)%nat = true).
  { apply (forall_below
             (fun z => (2 <=? String.length (pad2 z))%nat
                       && (String.length (pad2 z) <=? 4)%nat) 1194); [|lia].
    vm_compute. reflexivity. }
  apply andb_true_iff in H as [H1 H2].
  apply Nat.leb_le in H1. apply Nat.leb_le in H2. lia.
Qed.

Lemma length_append s1 s2 :
  String.length (String.append s1 s2) = (String.length s1 + String.length s2)%nat.
Proof. induction s1 as [|c s1 IH]; cbn; [reflexivity | rewrite IH; reflexivity]. Qed.

Lemma substring_all s : forall n,
  (String.length s <= n)%nat -> substring 0 n s = s.
Proof.
  induction s as [|c s IH]; intros n Hn.
  - destruct n; reflexivity.
  - destruct n; cbn in *; [lia|]. rewrite IH by lia. reflexivity.
Qed.

(** X3.  For every reading of the 32-bit millisecond clock the uptime
    string has 8 to 10 characters: it fits [buf[20]], and the 16-byte
    [timestamp] field of a log entry holds it whole. *)
Theorem uptime_fits millis :
  0 <= millis < 2 ^ 32 ->
  let t := getUptimeStr millis in
  (8 <= String.length t <= 10)%nat
  /\ substring 0 15 t = t
  /\ forall dist zoneName quality,
       timestamp (entry_of (millis, dist, zoneName, quality)) = t.
Proof.
  intros Hm t.
  assert (Hlen : (8 <= String.length t <= 10)%nat).
  { subst t. unfold getUptimeStr. cbv zeta. cbn [String.concat].
    rewrite !length_append. cbn [String.length].
    assert (Hnow : 0 <= millis / 1000 < 4294968).
    { split; [apply Z.div_pos; lia | apply Z.div_lt_upper_bound; lia]. }
    assert (Hhr : 0 <= millis / 1000 / 3600 < 1194).
    { split; [apply Z.div_pos; lia | apply Z.div_lt_upper_bound; lia]. }
    pose proof (pad2_hours _ Hhr).
    pose proof (pad2_two ((millis / 1000 / 60) mod 60)
                  (Z.mod_pos_bound _ 60 ltac:(lia))).
    pose proof (pad2_two ((millis / 1000) mod 60)
                  (Z.mod_pos_bound _ 60 ltac:(lia))).
    lia. }
  assert (Hsub : substring 0 15 t = t) by (apply substring_all; lia).
  split; [exact Hlen|]. split; [exact Hsub|].
  intros. cbn. exact Hsub.
Qed.

Lemma uptime_fits_witness :
  0 <= 4294967295 < 2 ^ 32
  /\ getUptimeStr 4294967295 = "1193:02:47"
  /\ substring 0 15 (getUptimeStr 4294967295) = getUptimeStr 4294967295.
Proof.
  split; [lia|]. split; [reflexivity|].
  apply (uptime_fits 4294967295). lia.
Defined.

(** ** The filter of the ranging task *)

Lemma accepted_negative m e : accepted (S754_finite true m e) = false.
Proof.
  unfold accepted, f_gt, F64.of_float, binary_round, binary_round_aux.
  destruct (shl_align _ _ _) as [mz ez].
  destruct (shr_fexp _ _ _ _ _) as [mrs e1].
  destruct (shr_fexp _ _ _ _ _) as [mrs2 e2].
  destruct (shr_m mrs2); [reflexivity | | reflexivity].
  destruct (e2 <=? _); reflexivity.
Qed.

Lemma accepted_positive d :
  accepted d = true ->
  f_gt d (F32.of_Z 0) = true /\ f_ne d (F32.of_Z 0) = true /\ is_nan d = false.
Proof.
  destruct d as [s|[|]| |[|] m e]; intros H; try discriminate H.
  - repeat split.
  - rewrite accepted_negative in H. discriminate.
  - repeat split.
Qed.

Lemma sample_ok_readers d :
  sample_ok d -> f_gt d (F32.of_Z 0) = f_ne d (F32.of_Z 0).
Proof.
  intros [->|H]; [reflexivity|].
  destruct (accepted_positive d H) as (H1 & H2 & _). rewrite H1, H2. reflexivity.
Qed.

Lemma tick_frame now t_log w :
  cfg (fst (checkSafetyAndRelays now t_log w)) = cfg w
  /\ distance_cm (sys (fst (checkSafetyAndRelays now t_log w))) = distance_cm (sys w)
  /\ last_packet_ms (sys (fst (checkSafetyAndRelays now t_log w)))
     = last_packet_ms (sys w)
  /\ link_quality_pct (sys (fst (checkSafetyAndRelays now t_log w)))
     = calc_link_quality (elapsed_ms now w).
Proof. unfold checkSafetyAndRelays; cbn. repeat split. Qed.

Lemma tick_zone now t_log w :
  last_known_zone (sys (fst (checkSafetyAndRelays now t_log w)))
  = if signal_lost now w then last_known_zone (sys w) else next_level now w.
Proof. open_tick now w; reflexivity. Qed.

Lemma tick_last_coil now t_log w :
  lastCoilStatus (fst (checkSafetyAndRelays now t_log w))
  = coil_of_level (next_level now w).
Proof.
  unfold coil_of_level.
  unfold checkSafetyAndRelays, next_level; cbn.
  destruct (signal_lost now w); cbn;
    match goal with
    | |- (if negb (?c =? ?l) || ?b then _ else _) = _ =>
        destruct (Z.eqb_spec c l) as [E|E]; destruct b; cbn; congruence
    end.
Qed.

Lemma calc_link_quality_range e : 0 <= calc_link_quality e <= 100.
Proof.
  unfold calc_link_quality.
  destruct (Z.ltb_spec e 100); [lia|].
  destruct (Z.ltb_spec 2000 e); [lia|].
  apply map_quality_range. lia.
Qed.

Lemma u32_range z : 0 <= u32 z < 2 ^ 32.
Proof. unfold u32. apply Z.mod_pos_bound. lia. Qed.

Lemma alive_level_range now w :
  signal_lost now w = false -> 0 <= next_level now w <= 2.
Proof.
  intros H. unfold next_level. rewrite H.
  destruct (classify_cases (cfg w) (safety_level (sys w)) (distance_cm (sys w)))
    as [E|[E|E]]; rewrite E; unfold STOP, WARN, SAFE; lia.
Qed.

Lemma next_level_range now w : 0 <= next_level now w <= 3.
Proof.
  destruct (next_level_cases now w) as [E|[E|[E|E]]]; rewrite E;
    unfold STOP, WARN, SAFE, COMMLOSS; lia.
Qed.

Lemma Inv_boot p : Inv p (boot p).
Proof.
  constructor; cbn; try reflexivity; try lia.
  - left; reflexivity.
  - apply Forall_forall. intros e He.
    apply elem_of_replicate in He as [-> _]. cbn. split; [left; reflexivity | lia].
Qed.

Lemma Inv_range p d millis w : Inv p w -> Inv p (uwb_range d millis w).
Proof.
  intros I. unfold uwb_range. destruct (accepted d) eqn:E; [|exact I].
  destruct I. constructor; cbn; try assumption.
  right; exact E.
Qed.

Lemma Inv_tick p now t_log w :
  Inv p w -> Inv p (fst (checkSafetyAndRelays now t_log w)).
Proof.
  intros I.
  destruct (tick_frame now t_log w) as (Hc & Hd & _ & Hq).
  pose proof (tick_stats now t_log w) as Hs.
  pose proof (tick_log now t_log w) as Hl.
  pose proof (next_level_range now w) as Hr.
  assert (Hrec : 0 <= logHead (fst (checkSafetyAndRelays now t_log w)) < 50
                 /\ length (history (fst (checkSafetyAndRelays now t_log w))) = 50%nat
                 /\ Forall (fun e => sample_ok (distance e) /\ 0 <= link_quality e <= 100)
                      (history (fst (checkSafetyAndRelays now t_log w)))).
  { pose proof (f_equal fst Hl) as Hl1. pose proof (f_equal snd Hl) as Hl2.
    cbn [fst snd] in Hl1, Hl2. rewrite Hl1, Hl2. clear Hl Hl1 Hl2.
    unfold record_transition.
    destruct (negb _);
      [destruct (f_gt _ _ || _)|]; cbn [fst snd];
      try (split; [apply (inv_head p w I)|];
           split; [apply (inv_slots p w I) | apply (inv_entries p w I)]).
    rewrite logEvent_entry. cbn [fst snd].
    pose proof (inv_head p w I) as Hh.
    split.
    - unfold MAX_LOG_EVENTS. destruct (Z.leb_spec 50 (logHead w + 1)); lia.
    - split; [rewrite length_insert; apply (inv_slots p w I)|].
      apply Forall_insert; [apply (inv_entries p w I)|].
      cbn. split; [apply (inv_sample p w I) | apply calc_link_quality_range]. }
  destruct Hrec as (Hh & Hn & He).
  constructor.
  - rewrite Hc. apply (inv_cfg p w I).
  - rewrite tick_level. exact Hr.
  - rewrite tick_zone. destruct (signal_lost now w) eqn:E;
      [apply (inv_zone p w I) | apply alive_level_range; exact E].
  - rewrite Hs, record_last, tick_level. reflexivity.
  - exact Hh.
  - exact Hn.
  - rewrite Hd. apply (inv_sample p w I).
  - exact He.
  - rewrite Hq. apply calc_link_quality_range.
  - right. rewrite tick_last_coil, tick_level. reflexivity.
  - rewrite Hs. unfold record_transition.
    pose proof (inv_counters p w I) as (H1 & H2 & H3).
    destruct (negb _); cbn; [|auto].
    repeat split;
      match goal with
      | |- context [if ?b then _ else _] => destruct b
      end; try apply u32_range; lia.
Qed.

Lemma Inv_run p es : Inv p (run es (boot p)).
Proof.
  assert (H : forall es w, Inv p w -> Inv p (run es w)).
  { clear es. induction es as [|[now t_log|d millis] es IH]; intros w I.
    - exact I.
    - rewrite run_tick. apply IH, Inv_tick, I.
    - rewrite run_range. apply IH, Inv_range, I. }
  apply H, Inv_boot.
Qed.

(** X4.  Every state the device reaches from its start by ticks and
    ranging frames, whatever frames arrive and whenever [loop] runs,
    satisfies: [cfg] is what [loadConfig] produced; the level is 0..3 and
    [last_known_zone] 0..2 (never CommLoss); [last_level_stats] is the
    level; the log head is inside the 50 slots; the stored distance and
    every logged distance is 0 or passed the filter; every link quality is
    in [0,100]; the pattern last written to the relays is the initial 0xFF
    or that of the level; the counters are 32-bit values. *)
Theorem reachable_invariant p es :
  let w := run es (boot p) in
  cfg w = loadConfig p
  /\ 0 <= safety_level (sys w) <= 3
  /\ 0 <= last_known_zone (sys w) <= 2
  /\ last_level_stats (stats w) = safety_level (sys w)
  /\ 0 <= logHead w < 50
  /\ length (history w) = 50%nat
  /\ sample_ok (distance_cm (sys w))
  /\ Forall (fun e => sample_ok (distance e) /\ 0 <= link_quality e <= 100)
       (history w)
  /\ 0 <= link_quality_pct (sys w) <= 100
  /\ (lastCoilStatus w = 255
      \/ lastCoilStatus w = coil_of_level (safety_level (sys w)))
  /\ 0 <= red_entries (stats w) < 2 ^ 32
  /\ 0 <= yellow_entries (stats w) < 2 ^ 32
  /\ 0 <= comm_drops (stats w) < 2 ^ 32.
Proof.
  cbv zeta. destruct (Inv_run p es) as [H1 H2 H3 H4 H5 H6 H7 H8 H9 H10 H11].
  repeat (split; [assumption|]). exact H11.
Qed.

(** ** The two log routes *)

Lemma readers_agree_on h :
  Forall (fun e => sample_ok (distance e)) h -> live_hist h = csv_rows h.
Proof.
  intros H. unfold live_hist, csv_rows. apply List.filter_ext_in.
  intros e He. apply sample_ok_readers.
  rewrite Forall_forall in H. apply H, list_elem_of_In, He.
Qed.

(** X5.  In every state reached from the start, [/live] and
    [/download_csv] select the same log entries, in the same order, and
    never more than 50. *)
Theorem readers_agree p es :
  let h := history (run es (boot p)) in
  live_hist h = csv_rows h /\ (length (live_hist h) <= 50)%nat.
Proof.
  cbv zeta. pose proof (Inv_run p es) as I. split.
  - apply readers_agree_on. eapply Forall_impl; [apply (inv_entries _ _ I)|].
    cbv beta. tauto.
  - unfold live_hist. rewrite <- (inv_slots _ _ I). apply List.filter_length_le.
Qed.

(** X6.  When a tick changes the level while a sample is stored, the event
    is in the buffer at the old head, with the stored distance, the label
    of the new level, the link quality of this tick and the uptime string,
    and [/live] and [/download_csv] show it from then on. *)
Theorem transition_is_logged_and_shown now t_log w :
  length (history w) = 50%nat -> 0 <= logHead w < 50 ->
  accepted (distance_cm (sys w)) = true ->
  next_level now w <> last_level_stats (stats w) ->
  let w' := fst (checkSafetyAndRelays now t_log w) in
  let e := mkEventLog (substring 0 15 (getUptimeStr t_log)) (distance_cm (sys w))
             (zone_name (safety_level (sys w')))
             (link_quality_pct (sys w')) in
  history w' !! Z.to_nat (logHead w) = Some e
  /\ logHead w' = (logHead w + 1) mod 50
  /\ In e (live_hist (history w'))
  /\ In e (csv_rows (history w')).
Proof.
  intros Hn Hh Hacc Hchg w' e. subst w' e.
  destruct (accepted_positive _ Hacc) as (Hpos & Hne & _).
  destruct (tick_frame now t_log w) as (_ & _ & _ & Hq).
  pose proof (tick_log now t_log w) as Hl.
  rewrite tick_level, Hq.
  unfold record_transition in Hl.
  destruct (Z.eqb_spec (next_level now w) (last_level_stats (stats w)));
    [contradiction|].
  rewrite Hpos in Hl. cbn [negb orb snd] in Hl.
  rewrite logEvent_entry in Hl.
  pose proof (f_equal fst Hl) as Hhist. pose proof (f_equal snd Hl) as Hhead.
  cbn [fst snd] in Hhist, Hhead. rewrite (head_next_mod _ Hh) in Hhead.
  assert (Hslot : history (fst (checkSafetyAndRelays now t_log w))
                    !! Z.to_nat (logHead w)
                  = Some (mkEventLog (substring 0 15 (getUptimeStr t_log))
                            (distance_cm (sys w)) (zone_name (next_level now w))
                            (calc_link_quality (elapsed_ms now w)))).
  { rewrite Hhist. apply list_lookup_insert_eq. lia. }
  split; [exact Hslot|]. split; [exact Hhead|].
  apply list_elem_of_lookup_2, list_elem_of_In in Hslot.
  split; apply List.filter_In; (split; [exact Hslot|]); cbn; assumption.
Qed.

Lemma transition_is_logged_and_shown_witness :
  let w := uwb_range (F32.of_Z 480) 10000 (boot no_prefs) in
  let w' := fst (checkSafetyAndRelays 10001 10001 w) in
  length (history w) = 50%nat /\ 0 <= logHead w < 50
  /\ accepted (distance_cm (sys w)) = true
  /\ next_level 10001 w <> last_level_stats (stats w)
  /\ In (mkEventLog "00:00:10" (F32.of_Z 480) "DANGER" 100) (live_hist (history w')).
Proof.
  assert (Hh : 0 <= logHead (uwb_range (F32.of_Z 480) 10000 (boot no_prefs)) < 50)
    by (split; [apply Z.leb_le | apply Z.ltb_lt]; reflexivity).
  assert (Hc : next_level 10001 (uwb_range (F32.of_Z 480) 10000 (boot no_prefs))
               <> last_level_stats (stats (uwb_range (F32.of_Z 480) 10000
                                             (boot no_prefs))))
    by (vm_compute; discriminate).
  cbv zeta. split; [reflexivity|]. split; [exact Hh|]. split; [reflexivity|].
  split; [exact Hc|].
  apply (transition_is_logged_and_shown 10001 10001
           (uwb_range (F32.of_Z 480) 10000 (boot no_prefs))
           eq_refl Hh eq_refl Hc).
Defined.

(** X13.  The filter of [uwb_task]: a frame whose distance is 0, negative,
    NaN or otherwise not above 0.1 changes nothing.  An accepted distance
    is positive and not NaN; it replaces [distance_cm], the clock replaces
    [last_packet_ms], and nothing else changes, so that a tick at the same
    clock reading finds the link alive. *)
Theorem ranging_filter d millis w :
  (accepted d = false -> uwb_range d millis w = w)
  /\ (accepted d = true ->
      let w' := uwb_range d millis w in
      f_gt d (F32.of_Z 0) = true /\ is_nan d = false
      /\ distance_cm (sys w') = d /\ last_packet_ms (sys w') = millis
      /\ safety_level (sys w') = safety_level (sys w)
      /\ last_known_zone (sys w') = last_known_zone (sys w)
      /\ stats w' = stats w /\ cfg w' = cfg w
      /\ history w' = history w /\ logHead w' = logHead w
      /\ signal_lost millis w' = false)
  /\ accepted (S754_zero false) = false
  /\ accepted (S754_zero true) = false
  /\ accepted S754_nan = false
  /\ accepted (S754_infinity true) = false
  /\ (forall m e, accepted (S754_finite true m e) = false).
Proof.
  split; [apply range_dropped|]. split.
  - intros Hacc w'. subst w'. destruct (accepted_positive d Hacc) as (H1 & _ & H3).
    unfold uwb_range. rewrite Hacc. cbn.
    repeat split; try assumption.
    unfold signal_lost, elapsed_ms; cbn. rewrite Z.sub_diag. reflexivity.
  - repeat split. apply accepted_negative.
Qed.

Lemma ranging_filter_witness :
  accepted (F32.of_Z 480) = true
  /\ accepted (S754_zero false) = false
  /\ distance_cm (sys (uwb_range (F32.of_Z 480) 10000 (boot no_prefs))) = F32.of_Z 480
  /\ uwb_range (S754_zero false) 10000 (boot no_prefs) = boot no_prefs.
Proof.
  split; [reflexivity|]. split; [reflexivity|]. split.
  - apply (proj1 (proj2 (ranging_filter (F32.of_Z 480) 10000 (boot no_prefs)))).
    reflexivity.
  - apply (proj1 (ranging_filter (S754_zero false) 10000 (boot no_prefs))).
    reflexivity.
Defined.

(** X14.  A sample revives the link: after an accepted frame, a tick no
    more than 1000 ms later (on the 32-bit clock) classifies the new
    distance, so the level is Safe, Warn or Stop, never CommLoss, and
    [last_known_zone] becomes that level. *)
Theorem sample_revives_link d millis now t_log w :
  accepted d = true ->
  u32 (now - millis) <= 1000 ->
  let w' := fst (checkSafetyAndRelays now t_log (uwb_range d millis w)) in
  safety_level (sys w') = fst (classify (cfg w) (safety_level (sys w)) d)
  /\ 0 <= safety_level (sys w') <= 2
  /\ safety_level (sys w') <> COMMLOSS
  /\ last_known_zone (sys w') = safety_level (sys w')
  /\ relay_health (sys w') = false.
Proof.
  intros Hacc Hnow w'. subst w'.
  set (w1 := uwb_range d millis w).
  assert (Hw1 : distance_cm (sys w1) = d /\ last_packet_ms (sys w1) = millis
                /\ safety_level (sys w1) = safety_level (sys w)
                /\ cfg w1 = cfg w).
  { subst w1. unfold uwb_range. rewrite Hacc. cbn. auto. }
  destruct Hw1 as (Hd & Hp & Hl & Hc).
  assert (Halive : signal_lost now w1 = false).
  { unfold signal_lost, elapsed_ms, WATCHDOG_MS. rewrite Hp.
    apply Z.ltb_ge. exact Hnow. }
  pose proof (alive_level_range now w1 Halive) as Hr.
  assert (Hn : next_level now w1 = fst (classify (cfg w) (safety_level (sys w)) d)).
  { unfold next_level. rewrite Halive, Hd, Hl, Hc. reflexivity. }
  rewrite tick_zone, tick_level, Halive.
  split; [exact Hn|]. split; [exact Hr|].
  split; [unfold COMMLOSS; lia|]. split; [reflexivity|].
  destruct (tick_relays now t_log w1) as (_ & _ & _ & Hh).
  rewrite Hh, tick_level. unfold COMMLOSS. apply Z.eqb_neq. lia.
Qed.

Lemma sample_revives_link_witness :
  let w := run [Tick 500 500; Tick 2000 2000] (boot no_prefs) in
  safety_level (sys w) = COMMLOSS
  /\ accepted (F32.of_Z 1600) = true
  /\ u32 (5100 - 5000) <= 1000
  /\ safety_level (sys (fst (checkSafetyAndRelays 5100 5100
                               (uwb_range (F32.of_Z 1600) 5000 w)))) = SAFE.
Proof.
  cbv zeta. split; [reflexivity|]. split; [reflexivity|].
  assert (Hu : u32 (5100 - 5000) <= 1000) by (apply Z.leb_le; reflexivity).
  split; [exact Hu|].
  rewrite (proj1 (sample_revives_link (F32.of_Z 1600) 5000 5100 5100
                    (run [Tick 500 500; Tick 2000 2000] (boot no_prefs))
                    eq_refl Hu)).
  reflexivity.
Defined.

(** ** The relay word *)

Lemma coil_of_level_values :
  coil_of_level STOP = 1 /\ coil_of_level WARN = 2
  /\ coil_of_level SAFE = 4 /\ coil_of_level COMMLOSS = 8.
Proof. repeat split. Qed.

(** X15.  After every tick the pattern last handed to the relay board is
    the pattern of the current level: bit 0 for Stop, bit 1 for Warn, bit 2
    for Safe, bit 3 for CommLoss, so a change of level is written in the
    tick that makes it.  What a tick writes is that pattern, and the first
    tick after the start always writes. *)
Theorem relay_word_tracks_level now t_log w :
  let r := checkSafetyAndRelays now t_log w in
  let level := safety_level (sys (fst r)) in
  lastCoilStatus (fst r) = coil_of_level level
  /\ coil_of_level level = 2 ^ (if level =? STOP then 0 else if level =? WARN then 1
                                else if level =? SAFE then 2 else 3)
  /\ (snd r = None \/ snd r = Some (coil_of_level level))
  /\ (coil_of_level level <> lastCoilStatus w -> snd r = Some (coil_of_level level))
  /\ (lastCoilStatus w = 255 -> snd r = Some (coil_of_level level)).
Proof.
  intros r level. subst r level. rewrite tick_last_coil, tick_level.
  pose proof (proj1 (tick_bus now t_log w)) as Hs. cbv zeta in Hs.
  assert (Hv : coil_of_level (next_level now w)
               = 2 ^ (if next_level now w =? STOP then 0
                      else if next_level now w =? WARN then 1
                      else if next_level now w =? SAFE then 2 else 3)).
  { destruct (next_level_cases now w) as [E|[E|[E|E]]]; rewrite E; reflexivity. }
  assert (Hchg : coil_of_level (next_level now w) <> lastCoilStatus w ->
                 snd (checkSafetyAndRelays now t_log w)
                 = Some (coil_of_level (next_level now w))).
  { intros Hne. rewrite Hs. unfold bus_write.
    destruct (Z.eqb_spec (coil_of_level (next_level now w)) (lastCoilStatus w));
      [contradiction | reflexivity]. }
  split; [reflexivity|]. split; [exact Hv|]. split; [|split].
  - rewrite Hs. destruct (bus_write now w); auto.
  - exact Hchg.
  - intros H255. apply Hchg. rewrite H255, Hv.
    repeat match goal with |- context [if ?b then _ else _] => destruct b end;
      discriminate.
Qed.

Lemma relay_word_tracks_level_witness :
  lastCoilStatus (boot no_prefs) = 255
  /\ snd (checkSafetyAndRelays 8000 8000 (boot no_prefs)) = Some 4.
Proof.
  split; [reflexivity|].
  rewrite (proj2 (proj2 (proj2 (proj2
             (relay_word_tracks_level 8000 8000 (boot no_prefs))))) eq_refl).
  reflexivity.
Defined.

(** ** A loss of the link *)

Lemma lost_tick_commloss now t_log w :
  last_known_zone (sys w) <> SAFE -> signal_lost now w = true ->
  next_level now w = COMMLOSS
  /\ status_msg (sys (fst (checkSafetyAndRelays now t_log w))) = "SIGNAL LOST"
  /\ last_known_zone (sys (fst (checkSafetyAndRelays now t_log w)))
     = last_known_zone (sys w)
  /\ last_packet_ms (sys (fst (checkSafetyAndRelays now t_log w)))
     = last_packet_ms (sys w).
Proof.
  intros Hz Hlost.
  pose proof (tick_lost_sys now t_log w Hlost) as (Hm & Hk & Hp & _).
  unfold next_level. rewrite Hlost, Hm, Hk, Hp. unfold failsafe.
  destruct (Z.eqb_spec (last_known_zone (sys w)) 0); [contradiction|].
  repeat split.
Qed.

Lemma tick_relays_of now t_log w :
  relay_red (sys (fst (checkSafetyAndRelays now t_log w))) = (next_level now w =? STOP)
  /\ relay_yellow (sys (fst (checkSafetyAndRelays now t_log w))) = (next_level now w =? WARN)
  /\ relay_green (sys (fst (checkSafetyAndRelays now t_log w))) = (next_level now w =? SAFE)
  /\ relay_health (sys (fst (checkSafetyAndRelays now t_log w)))
     = (next_level now w =? COMMLOSS).
Proof. open_tick now w; repeat split. Qed.

Lemma commloss_dwell es : forall w,
  last_known_zone (sys w) <> SAFE ->
  last_level_stats (stats w) = COMMLOSS ->
  forallb (quiet w) es = true ->
  Forall (fun r => safety_level (sys (fst r)) = COMMLOSS
                   /\ stats (fst r) = stats w
                   /\ history (fst r) = history w
                   /\ relay_health (sys (fst r)) = true
                   /\ relays_on (sys (fst r)) = 1%nat) (ticks es w).
Proof.
  induction es as [|[now t_log|d t] es IH]; intros w Hz Hrec Hq; [constructor| |].
  - cbn [forallb quiet] in Hq. apply andb_true_iff in Hq as [Hlost Hq].
    rewrite ticks_tick.
    destruct (lost_tick_commloss now t_log w Hz Hlost) as (Hl & _ & Hk & Hp).
    assert (Hsame : next_level now w = last_level_stats (stats w)) by congruence.
    pose proof (dwelling_tick now t_log w Hsame) as (Hs & Hh & _).
    destruct (tick_relays_of now t_log w) as (Hr & Hy & Hg & Hc).
    apply Forall_cons. split.
    + cbv beta. rewrite tick_level. unfold relays_on.
      rewrite Hr, Hy, Hg, Hc, Hl. repeat split; assumption.
    + rewrite <- Hs, <- Hh. apply IH.
      * rewrite Hk. exact Hz.
      * rewrite Hs. exact Hrec.
      * rewrite (quiet_all_same_clock _ w es Hp). exact Hq.
  - cbn [forallb quiet] in Hq. apply andb_true_iff in Hq as [Hdrop Hq].
    apply negb_true_iff in Hdrop.
    rewrite ticks_range, (range_dropped _ _ _ Hdrop). apply IH; assumption.
Qed.

(** X7.  A loss of the link inside the hazard zones is counted once: when
    [last_known_zone] is Warn or Stop and the recorded level is not yet
    CommLoss, then from the first tick that finds the watchdog expired, and
    for as long as every later tick finds it expired too and no frame is
    accepted in between, the level is CommLoss, the drop counter is one
    more than before, the other counters have not moved, and the health
    relay alone is on. *)
Theorem commloss_counted_once now t_log es w :
  last_known_zone (sys w) <> SAFE ->
  last_level_stats (stats w) <> COMMLOSS ->
  forallb (quiet w) (Tick now t_log :: es) = true ->
  Forall (fun r => safety_level (sys (fst r)) = COMMLOSS
                   /\ comm_drops (stats (fst r)) = u32 (comm_drops (stats w) + 1)
                   /\ red_entries (stats (fst r)) = red_entries (stats w)
                   /\ yellow_entries (stats (fst r)) = yellow_entries (stats w)
                   /\ relay_health (sys (fst r)) = true
                   /\ relays_on (sys (fst r)) = 1%nat)
    (ticks (Tick now t_log :: es) w).
Proof.
  intros Hz Hrec Hq.
  cbn [forallb quiet] in Hq. apply andb_true_iff in Hq as [Hlost Hq].
  rewrite ticks_tick.
  destruct (lost_tick_commloss now t_log w Hz Hlost) as (Hl & _ & Hk & Hp).
  pose proof (tick_stats now t_log w) as Hs.
  rewrite Hl in Hs. unfold record_transition in Hs.
  destruct (Z.eqb_spec COMMLOSS (last_level_stats (stats w))) as [E|_];
    [congruence|].
  cbn in Hs.
  destruct (tick_relays_of now t_log w) as (Hr & Hy & Hg & Hc).
  set (w1 := fst (checkSafetyAndRelays now t_log w)) in *.
  apply Forall_cons. split.
  - cbv beta. fold w1. unfold w1 at 1. rewrite tick_level. unfold relays_on.
    rewrite Hr, Hy, Hg, Hc, Hl, Hs. repeat split.
  - assert (Hd : Forall (fun r => safety_level (sys (fst r)) = COMMLOSS
                   /\ stats (fst r) = stats w1
                   /\ history (fst r) = history w1
                   /\ relay_health (sys (fst r)) = true
                   /\ relays_on (sys (fst r)) = 1%nat) (ticks es w1)).
    { apply commloss_dwell.
      - rewrite Hk. exact Hz.
      - rewrite Hs. reflexivity.
      - rewrite (quiet_all_same_clock w1 w es Hp). exact Hq. }
    eapply Forall_impl; [exact Hd|].
    intros r (H1 & H2 & _ & H4 & H5). rewrite H2, Hs.
    cbn [comm_drops red_entries yellow_entries]. repeat split; assumption.
Qed.

Lemma commloss_counted_once_witness :
  let w := run [Range (F32.of_Z 480) 10000; Tick 10001 10001] (boot no_prefs) in
  let es := [Tick 11200 11200; Range (S754_zero false) 11300; Tick 11400 11400] in
  last_known_zone (sys w) <> SAFE
  /\ last_level_stats (stats w) <> COMMLOSS
  /\ forallb (quiet w) es = true
  /\ Forall (fun r => safety_level (sys (fst r)) = COMMLOSS
                      /\ comm_drops (stats (fst r)) = 1) (ticks es w).
Proof.
  assert (Hz : last_known_zone (sys (run [Range (F32.of_Z 480) 10000; Tick 10001 10001]
                                       (boot no_prefs))) <> SAFE)
    by (vm_compute; discriminate).
  assert (Hr : last_level_stats (stats (run [Range (F32.of_Z 480) 10000;
                                             Tick 10001 10001] (boot no_prefs)))
               <> COMMLOSS) by (vm_compute; discriminate).
  cbv zeta. split; [exact Hz|]. split; [exact Hr|]. split; [reflexivity|].
  eapply Forall_impl;
    [exact (commloss_counted_once 11200 11200
              [Range (S754_zero false) 11300; Tick 11400 11400] _ Hz Hr eq_refl)|].
  intros r (H1 & H2 & _). split; [exact H1 | rewrite H2; reflexivity].
Defined.

(** ** Link quality *)

Lemma map_quality_as_div e :
  100 <= e <= 2000 ->
  Arduino.map e 100 2000 100 0 = 100 - (e - 100) * 100 / 1900.
Proof.
  intros He. unfold Arduino.map.
  replace ((e - 100) * (0 - 100)) with (- ((e - 100) * 100)) by ring.
  rewrite Z.quot_opp_l by lia.
  rewrite Z.quot_div_nonneg by lia.
  change (2000 - 100) with 1900. lia.
Qed.

Lemma calc_link_quality_mono e1 e2 :
  e1 <= e2 -> calc_link_quality e2 <= calc_link_quality e1.
Proof.
  intros Hle.
  pose proof (calc_link_quality_range e1). pose proof (calc_link_quality_range e2).
  unfold calc_link_quality in *.
  destruct (Z.ltb_spec e1 100); [lia|].
  destruct (Z.ltb_spec e2 100); [lia|].
  destruct (Z.ltb_spec 2000 e2); [lia|].
  destruct (Z.ltb_spec 2000 e1); [lia|].
  rewrite !map_quality_as_div by lia.
  assert ((e1 - 100) * 100 / 1900 <= (e2 - 100) * 100 / 1900)
    by (apply Z.div_le_mono; lia).
  lia.
Qed.

(** X8.  The link quality never rises while the time since the last sample
    grows, and it meets the watchdog at 53: a tick that finds the link
    alive stores a quality of at least 53, a tick that finds it lost a
    quality of at most 53. *)
Theorem link_quality_decays :
  (forall e1 e2, e1 <= e2 -> calc_link_quality e2 <= calc_link_quality e1)
  /\ (forall now t_log w,
        let q := link_quality_pct (sys (fst (checkSafetyAndRelays now t_log w))) in
        if signal_lost now w then q <= 53 else 53 <= q).
Proof.
  split; [exact calc_link_quality_mono|].
  intros now t_log w q. subst q.
  destruct (tick_frame now t_log w) as (_ & _ & _ & ->).
  unfold signal_lost, WATCHDOG_MS.
  destruct (Z.ltb_spec 1000 (elapsed_ms now w)).
  - change 53 with (calc_link_quality 1001). apply calc_link_quality_mono. lia.
  - change 53 with (calc_link_quality 1000). apply calc_link_quality_mono. lia.
Qed.

Lemma link_quality_decays_witness :
  200 <= 1500 /\ calc_link_quality 1500 <= calc_link_quality 200.
Proof. split; [lia|]. apply (proj1 link_quality_decays). lia. Defined.

(** ** More floating-point facts *)

Lemma Zcompare_cases (a b : Z) :
  (a ?= b) = Lt /\ a < b \/ (a ?= b) = Eq /\ a = b \/ (a ?= b) = Gt /\ b < a.
Proof. destruct (Z.compare_spec a b); auto with zarith. Qed.

Lemma Pcompare_cases (a b : positive) :
  PosDef.Pos.compare_cont Eq a b = Lt /\ (a < b)%positive
  \/ PosDef.Pos.compare_cont Eq a b = Eq /\ a = b
  \/ PosDef.Pos.compare_cont Eq a b = Gt /\ (b < a)%positive.
Proof.
  change (PosDef.Pos.compare_cont Eq a b) with (Pos.compare a b).
  destruct (Pos.compare_spec a b); auto.
Qed.

(** [<=] on [float] is transitive. *)
Lemma f_le_trans a b c : f_le a b = true -> f_le b c = true -> f_le a c = true.
Proof.
  unfold f_le, SFleb.
  destruct a as [sa|sa| |sa ma ea], b as [sb|sb| |sb mb eb], c as [sc|sc| |sc mc ec];
    cbn; try discriminate; try reflexivity;
    try (destruct sa; cbn; try discriminate; try reflexivity);
    try (destruct sb; cbn; try discriminate; try reflexivity);
    try (destruct sc; cbn; try discriminate; try reflexivity);
    try (intros; discriminate).
  all: destruct (Zcompare_cases ea eb) as [[-> ?]|[[-> ?]|[-> ?]]];
       destruct (Zcompare_cases eb ec) as [[-> ?]|[[-> ?]|[-> ?]]];
       destruct (Zcompare_cases ea ec) as [[-> ?]|[[-> ?]|[-> ?]]];
       try lia; try discriminate; try reflexivity; cbn; try (intros; discriminate).
  all: subst.
  all: destruct (Pcompare_cases ma mb) as [[-> ?]|[[-> ?]|[-> ?]]];
       destruct (Pcompare_cases mb mc) as [[-> ?]|[[-> ?]|[-> ?]]];
       destruct (Pcompare_cases ma mc) as [[-> ?]|[[-> ?]|[-> ?]]];
       try lia; cbn; try discriminate; try reflexivity; try (intros; discriminate).
Qed.

Lemma f_le_nan_r d x : is_nan x = true -> f_le d x = false.
Proof. destruct x; try discriminate. intros _. destruct d; reflexivity. Qed.

Lemma eff_limit_nan x cur : is_nan x = true -> is_nan (eff_limit x cur) = true.
Proof. destruct x; try discriminate. reflexivity. Qed.

(** A threshold that passed the sanity check and is a number is above 0. *)
Lemma zero_le_checked x :
  f_lt x (F32.of_Z 50) = false -> is_nan x = false -> f_le F32.zero x = true.
Proof. destruct x as [s|[|]| |[|] m e]; intros H1 H2; try discriminate; reflexivity. Qed.

(** ** Zone classifier, continued *)

(** X18.  The classifier is monotone in the distance: in the same state, a
    distance that is not larger never gives a less restrictive level
    (Stop above Warn above Safe). *)
Theorem classify_monotone c level d1 d2 :
  f_le d1 d2 = true ->
  fst (classify c level d2) <= fst (classify c level d1)
  /\ (fst (classify c level d2) = STOP -> fst (classify c level d1) = STOP)
  /\ (fst (classify c level d1) = SAFE -> fst (classify c level d2) = SAFE).
Proof.
  intros Hle. unfold classify. cbv zeta.
  set (es := eff_limit (limit_stop_cm c) (level =? 2)).
  set (ew := eff_limit (limit_warn_cm c) (level =? 1)).
  destruct (f_le d2 es) eqn:E2s.
  - rewrite (f_le_trans d1 d2 es Hle E2s). cbn. repeat split; try lia; discriminate.
  - destruct (f_le d2 ew) eqn:E2w.
    + rewrite (f_le_trans d1 d2 ew Hle E2w).
      destruct (f_le d1 es); cbn; unfold STOP, SAFE; repeat split; try lia;
        discriminate.
    + destruct (f_le d1 es); [cbn; unfold STOP, SAFE; repeat split; try lia; discriminate|].
      destruct (f_le d1 ew); cbn; unfold STOP, SAFE; repeat split; try lia;
        discriminate.
Qed.

Lemma classify_monotone_witness :
  f_le (F32.of_Z 480) (F32.of_Z 1600) = true
  /\ fst (classify (loadConfig no_prefs) SAFE (F32.of_Z 1600))
     <= fst (classify (loadConfig no_prefs) SAFE (F32.of_Z 480)).
Proof.
  split; [reflexivity|].
  apply (classify_monotone (loadConfig no_prefs) SAFE (F32.of_Z 480) (F32.of_Z 1600)).
  reflexivity.
Defined.

(** X9.  The classifier does not ask whether a sample was ever stored: if
    a tick finds the link alive while [distance_cm] is still the initial 0
    (at the start [last_packet_ms] is 0, so this is any tick with a clock
    reading of at most 1000), the level not being Stop and the stop
    threshold being a checked number, then the level becomes Stop with the
    red relay on, [last_known_zone] becomes Stop, and nothing is logged. *)
Theorem unsampled_alive_is_stop now t_log w :
  distance_cm (sys w) = F32.zero ->
  signal_lost now w = false ->
  safety_level (sys w) <> STOP ->
  valid_f32 (limit_stop_cm (cfg w)) = true ->
  is_nan (limit_stop_cm (cfg w)) = false ->
  f_lt (limit_stop_cm (cfg w)) (F32.of_Z 50) = false ->
  let w' := fst (checkSafetyAndRelays now t_log w) in
  safety_level (sys w') = STOP
  /\ status_msg (sys w') = "DANGER: STOP"
  /\ last_known_zone (sys w') = STOP
  /\ relay_red (sys w') = true
  /\ history w' = history w /\ logHead w' = logHead w
  /\ (last_level_stats (stats w) <> STOP ->
      red_entries (stats w') = u32 (red_entries (stats w) + 1)).
Proof.
  intros Hd Halive Hlevel Hv Hn Hf w'. subst w'.
  assert (Hc : classify (cfg w) (safety_level (sys w)) (distance_cm (sys w))
               = (STOP, "DANGER: STOP")).
  { unfold classify. cbv zeta.
    destruct (Z.eqb_spec (safety_level (sys w)) 2); [contradiction|].
    rewrite Hd, (eff_limit_flat _ _ Hv), (zero_le_checked _ Hf Hn). reflexivity. }
  assert (Hl : next_level now w = STOP).
  { unfold next_level. rewrite Halive, Hc. reflexivity. }
  pose proof (tick_log now t_log w) as Hlog.
  pose proof (tick_stats now t_log w) as Hs.
  rewrite Hl, Hd in Hlog, Hs. unfold record_transition in Hlog, Hs.
  destruct (tick_relays_of now t_log w) as (Hr & _).
  rewrite tick_level, tick_zone, Halive, Hl, Hr, Hl.
  split; [reflexivity|]. split.
  { unfold checkSafetyAndRelays; cbn. rewrite Halive; cbn. rewrite Hc. reflexivity. }
  split; [reflexivity|]. split; [reflexivity|].
  destruct (Z.eqb_spec STOP (last_level_stats (stats w))) as [E|E];
    cbn in Hlog, Hs.
  - split; [exact (f_equal fst Hlog)|]. split; [exact (f_equal snd Hlog)|].
    intros H. congruence.
  - split; [exact (f_equal fst Hlog)|]. split; [exact (f_equal snd Hlog)|].
    intros _. rewrite Hs. reflexivity.
Qed.

Lemma unsampled_alive_is_stop_witness :
  let w := run [Tick 8000 8000] (boot no_prefs) in
  distance_cm (sys w) = F32.zero
  /\ signal_lost 500 w = false
  /\ safety_level (sys w) = SAFE
  /\ safety_level (sys (fst (checkSafetyAndRelays 500 500 w))) = STOP
  /\ history (fst (checkSafetyAndRelays 500 500 w)) = history0.
Proof.
  cbv zeta. split; [reflexivity|]. split; [reflexivity|]. split; [reflexivity|].
  pose proof (unsampled_alive_is_stop 500 500 (run [Tick 8000 8000] (boot no_prefs))
                eq_refl eq_refl ltac:(discriminate) eq_refl eq_refl eq_refl)
    as (H1 & _ & _ & _ & H5 & _).
  split; [exact H1 | rewrite H5; reflexivity].
Defined.

(** X10.  The sanity check of [loadConfig] lets a NaN through, [/save]
    stores one as it stores anything, and a NaN stop threshold switches the
    Stop zone off: no tick with the link alive gives Stop, whatever the
    distance, and with both thresholds NaN every such tick gives Safe. *)
Theorem nan_threshold_disables_stop :
  (forall p, nvs_stop p = Some S754_nan -> limit_stop_cm (loadConfig p) = S754_nan)
  /\ (forall warn w p,
        limit_stop_cm (cfg (fst (save_and_restart (Some S754_nan) warn w p)))
        = S754_nan)
  /\ (forall now t_log w,
        is_nan (limit_stop_cm (cfg w)) = true ->
        signal_lost now w = false ->
        let level' := safety_level (sys (fst (checkSafetyAndRelays now t_log w))) in
        level' <> STOP
        /\ (is_nan (limit_warn_cm (cfg w)) = true -> level' = SAFE)).
Proof.
  split; [|split].
  - intros p Hp. unfold loadConfig. rewrite Hp. reflexivity.
  - intros warn w p. destruct warn; reflexivity.
  - intros now t_log w Hnan Halive level'. subst level'.
    rewrite (tick_level_alive _ _ _ Halive). unfold classify. cbv zeta.
    rewrite (f_le_nan_r _ _ (eff_limit_nan _ _ Hnan)).
    split.
    + destruct (f_le _ _); discriminate.
    + intros Hw. rewrite (f_le_nan_r _ _ (eff_limit_nan _ _ Hw)). reflexivity.
Qed.

Lemma nan_threshold_disables_stop_witness :
  let w := uwb_range (F32.of_Z 10) 10000
             (fst (save_and_restart (Some S754_nan) None (boot no_prefs) no_prefs)) in
  is_nan (limit_stop_cm (cfg w)) = true
  /\ signal_lost 10001 w = false
  /\ safety_level (sys (fst (checkSafetyAndRelays 10001 10001 w))) <> STOP
  /\ safety_level (sys (fst (checkSafetyAndRelays 10001 10001 w))) = WARN.
Proof.
  cbv zeta. split; [reflexivity|]. split; [reflexivity|].
  pose proof (proj2 (proj2 nan_threshold_disables_stop) 10001 10001
                (uwb_range (F32.of_Z 10) 10000
                   (fst (save_and_restart (Some S754_nan) None (boot no_prefs)
                           no_prefs))) eq_refl eq_refl) as [H _].
  split; [exact H | reflexivity].
Defined.

(** ** Configuration *)

Lemma checked_twice v dflt :
  f_lt dflt (F32.of_Z 50) = false ->
  let v' := if f_lt v (F32.of_Z 50) then dflt else v in
  (if f_lt v' (F32.of_Z 50) then dflt else v') = v'.
Proof.
  intros Hd v'. subst v'. destruct (f_lt v (F32.of_Z 50)) eqn:E.
  - rewrite Hd. reflexivity.
  - rewrite E. reflexivity.
Qed.

(** X11.  Settings survive the restart of [/save]: posted thresholds that
    are not below the floor come back exactly; the PAN id, the network name
    and the peer address are what the store held before; the restart clears
    the sample, the counters and the event log; and a further save without
    parameters leaves the configuration as it is. *)
Theorem save_round_trip stop warn w p :
  f_lt stop (F32.of_Z 50) = false ->
  f_lt warn (F32.of_Z 50) = false ->
  let r := save_and_restart (Some stop) (Some warn) w p in
  limit_stop_cm (cfg (fst r)) = stop
  /\ limit_warn_cm (cfg (fst r)) = warn
  /\ pan_id (cfg (fst r)) = pan_id (loadConfig p)
  /\ ap_ssid (cfg (fst r)) = ap_ssid (loadConfig p)
  /\ peer_mac (cfg (fst r)) = peer_mac (loadConfig p)
  /\ sys (fst r) = sys0 /\ stats (fst r) = stats0 /\ history (fst r) = history0
  /\ cfg (fst (save_and_restart None None (fst r) (snd r))) = cfg (fst r).
Proof.
  intros Hs Hw r. subst r.
  set (p1 := mkPrefs (nvs_pan p) (Some stop) (Some warn) (nvs_ap p) (nvs_mac p)).
  assert (Hr : save_and_restart (Some stop) (Some warn) w p = (boot p1, p1))
    by reflexivity.
  assert (Hc : loadConfig p1
               = mkConfig (pan_id (loadConfig p)) warn stop
                   (ap_ssid (loadConfig p)) (peer_mac (loadConfig p))).
  { unfold loadConfig, p1. cbv zeta.
    cbn [default nvs_pan nvs_stop nvs_warn nvs_ap nvs_mac pan_id ap_ssid peer_mac].
    unfold id. rewrite Hs, Hw. reflexivity. }
  assert (Hagain : cfg (fst (save_and_restart None None (boot p1) p1)) = loadConfig p1).
  { change (cfg (fst (save_and_restart None None (boot p1) p1)))
      with (loadConfig (mkPrefs (nvs_pan p1) (Some (limit_stop_cm (loadConfig p1)))
                          (Some (limit_warn_cm (loadConfig p1))) (nvs_ap p1)
                          (nvs_mac p1))).
    rewrite Hc. unfold loadConfig, p1. cbv zeta.
    cbn [default nvs_pan nvs_stop nvs_warn nvs_ap nvs_mac pan_id ap_ssid peer_mac
         limit_stop_cm limit_warn_cm].
    unfold id. rewrite Hs, Hw. reflexivity. }
  rewrite Hr. cbn [fst snd]. rewrite Hagain.
  change (cfg (boot p1)) with (loadConfig p1). rewrite Hc.
  repeat split.
Qed.

Lemma save_round_trip_witness :
  let r := save_and_restart (Some (F32.of_Z 300)) (Some (F32.of_Z 900))
             (run example_run (boot no_prefs)) no_prefs in
  f_lt (F32.of_Z 300) (F32.of_Z 50) = false
  /\ f_lt (F32.of_Z 900) (F32.of_Z 50) = false
  /\ limit_stop_cm (cfg (fst r)) = F32.of_Z 300
  /\ limit_warn_cm (cfg (fst r)) = F32.of_Z 900
  /\ stats (fst r) = stats0.
Proof.
  cbv zeta. split; [reflexivity|]. split; [reflexivity|].
  pose proof (save_round_trip (F32.of_Z 300) (F32.of_Z 900)
                (run example_run (boot no_prefs)) no_prefs eq_refl eq_refl)
    as (H1 & H2 & _ & _ & _ & _ & H7 & _).
  split; [exact H1|]. split; [exact H2 | exact H7].
Defined.

(** X12.  Whatever the store holds, [loadConfig] yields thresholds that do
    not compare below 50: a stored threshold is kept unless it is below 50,
    in which case, as for a missing key, the default (500 for stop, 1500
    for warn) is used.  The two thresholds are checked one by one, never
    against each other, and an empty store gives the defaults 33, 500,
    1500, "CRANE-GUARD-A" and "10:20:BA:4F:FD:94".  Loading what a load
    produced changes nothing. *)
Theorem loadConfig_checked p :
  let c := loadConfig p in
  f_lt (limit_stop_cm c) (F32.of_Z 50) = false
  /\ f_lt (limit_warn_cm c) (F32.of_Z 50) = false
  /\ limit_stop_cm c
     = (let v := default (F32.of_Z 500) (nvs_stop p) in
        if f_lt v (F32.of_Z 50) then F32.of_Z 500 else v)
  /\ limit_warn_cm c
     = (let v := default (F32.of_Z 1500) (nvs_warn p) in
        if f_lt v (F32.of_Z 50) then F32.of_Z 1500 else v)
  /\ loadConfig no_prefs
     = mkConfig 33 (F32.of_Z 1500) (F32.of_Z 500) "CRANE-GUARD-A" "10:20:BA:4F:FD:94"
  /\ loadConfig (mkPrefs (Some (pan_id c)) (Some (limit_stop_cm c))
                   (Some (limit_warn_cm c)) (Some (ap_ssid c)) (Some (peer_mac c)))
     = c.
Proof.
  cbv zeta. unfold loadConfig. cbv zeta.
  cbn [limit_stop_cm limit_warn_cm pan_id ap_ssid peer_mac
       nvs_pan nvs_stop nvs_warn nvs_ap nvs_mac default].
  unfold id.
  split; [apply validated_not_below_floor; reflexivity|].
  split; [apply validated_not_below_floor; reflexivity|].
  split; [reflexivity|]. split; [reflexivity|]. split; [reflexivity|].
  rewrite (checked_twice _ (F32.of_Z 500) eq_refl).
  rewrite (checked_twice _ (F32.of_Z 1500) eq_refl). reflexivity.
Qed.

(** ** Parsing the peer address *)

Lemma strchr_none_sep f sep : strchr f sep = None -> Ascii.eqb sep Ascii.zero = false.
Proof.
  induction f as [|a f IH]; cbn.
  - destruct (Ascii.eqb sep Ascii.zero); [discriminate | reflexivity].
  - destruct (Ascii.eqb a sep); [discriminate | exact IH].
Qed.

Lemma strchr_field f sep rest :
  strchr f sep = None ->
  strchr (String.append f (String sep rest)) sep = Some (String sep rest).
Proof.
  induction f as [|a f IH]; cbn; intros H.
  - rewrite Ascii.eqb_refl. reflexivity.
  - destruct (Ascii.eqb a sep); [discriminate | apply IH, H].
Qed.

Lemma parseBytes_loop_length strtoul n : forall i str sep bytes base,
  length (parseBytes_loop strtoul n i str sep bytes base) = length bytes.
Proof.
  induction n as [|n IH]; intros i str sep bytes base; cbn; [reflexivity|].
  destruct (strchr str sep) as [[|a rest]|]; try apply length_insert.
  destruct (Ascii.eqb a Ascii.zero); [apply length_insert|].
  rewrite IH. apply length_insert.
Qed.

Lemma parseBytes_loop_outside strtoul n : forall i str sep bytes base k,
  (k < i \/ i + n <= k)%nat ->
  parseBytes_loop strtoul n i str sep bytes base !! k = bytes !! k.
Proof.
  induction n as [|n IH]; intros i str sep bytes base k Hk; cbn; [reflexivity|].
  assert (Hi : <[i:=strtoul str base mod 256]> bytes !! k = bytes !! k)
    by (apply list_lookup_insert_ne; lia).
  destruct (strchr str sep) as [[|a rest]|]; try exact Hi.
  destruct (Ascii.eqb a Ascii.zero); [exact Hi|].
  rewrite IH by lia. exact Hi.
Qed.

Ltac nat_tests :=
  repeat match goal with
    | |- context [(?a <=? ?b)%nat] => destruct (Nat.leb_spec a b)
    | |- context [(?a <? ?b)%nat] => destruct (Nat.ltb_spec a b)
    end;
  cbn [andb]; try lia.

Lemma parseBytes_loop_fields strtoul sep base fields : forall n i bytes,
  fields <> [] ->
  Forall (fun fd => strchr fd sep = None) fields ->
  forall k, (k < length bytes)%nat ->
    parseBytes_loop strtoul n i (join_fields sep fields) sep bytes base !! k
    = if (i <=? k)%nat && (k <? i + Nat.min n (length fields))%nat
      then Some (strtoul (join_fields sep (drop (k - i) fields)) base mod 256)
      else bytes !! k.
Proof.
  induction fields as [|fd rest IH]; intros n i bytes Hne Hf k Hk; [contradiction|].
  apply Forall_cons in Hf as [Hfd Hrest].
  destruct n as [|n].
  { cbn [parseBytes_loop]. nat_tests; reflexivity. }
  destruct rest as [|gd rest].
  - cbn [join_fields parseBytes_loop length]. rewrite Hfd.
    destruct (Nat.eq_dec k i) as [->|Hki].
    + rewrite list_lookup_insert_eq by exact Hk.
      rewrite Nat.sub_diag. cbn [drop join_fields]. nat_tests; reflexivity.
    + rewrite list_lookup_insert_ne by congruence. nat_tests; reflexivity.
  - change (join_fields sep (fd :: gd :: rest))
      with (String.append fd (String sep (join_fields sep (gd :: rest)))).
    cbn [parseBytes_loop]. rewrite (strchr_field _ _ _ Hfd).
    rewrite (strchr_none_sep _ _ Hfd).
    rewrite (IH n (S i) _ ltac:(discriminate) Hrest k)
      by (rewrite length_insert; exact Hk).
    cbn [length].
    destruct (Nat.eq_dec k i) as [->|Hki].
    + rewrite list_lookup_insert_eq by exact Hk.
      rewrite Nat.sub_diag. cbn [drop]. nat_tests; reflexivity.
    + rewrite list_lookup_insert_ne by congruence.
      nat_tests; try reflexivity.
      replace (k - i)%nat with (S (k - S i)) by lia. reflexivity.
Qed.

(** X17.  [parseBytes] on text made of fields with separators between
    them, for any [strtoul]: the array keeps its length; entry [k], for [k]
    below both [maxBytes] and the number of fields, becomes the low 8 bits
    of [strtoul] applied to the text from field [k] on; every other entry
    is as before, so fields beyond [maxBytes] are ignored and an address
    with too few fields leaves the rest of the array alone. *)
Theorem parseBytes_fields strtoul sep base fields bytes maxBytes :
  fields <> [] ->
  Forall (fun fd => strchr fd sep = None) fields ->
  let r := parseBytes strtoul (join_fields sep fields) sep bytes maxBytes base in
  length r = length bytes
  /\ forall k, (k < length bytes)%nat ->
       r !! k
       = if (k <? Nat.min (Z.to_nat maxBytes) (length fields))%nat
         then Some (strtoul (join_fields sep (drop k fields)) base mod 256)
         else bytes !! k.
Proof.
  intros Hne Hf r. subst r. unfold parseBytes.
  split; [apply parseBytes_loop_length|].
  intros k Hk.
  rewrite (parseBytes_loop_fields strtoul sep base fields _ 0%nat bytes Hne Hf k Hk).
  cbn [Nat.leb andb Nat.add]. rewrite Nat.sub_0_r. reflexivity.
Qed.

Lemma parseBytes_fields_witness :
  let strtoul := fun (s : string) (_ : Z) => Z.of_nat (String.length s) in
  let fields := ["10"; "20"; "BA"] in
  fields <> []
  /\ Forall (fun fd => strchr fd ":" = None) fields
  /\ parseBytes strtoul "10:20:BA" ":" [7; 7; 7; 7; 7; 7] 6 16 = [8; 5; 2; 7; 7; 7]
  /\ parseBytes strtoul (join_fields ":" fields) ":" [7; 7; 7; 7; 7; 7] 6 16
        !! 3%nat = Some 7.
Proof.
  cbv zeta. split; [discriminate|].
  assert (Hf : Forall (fun fd => strchr fd ":" = None) ["10"; "20"; "BA"])
    by (repeat constructor).
  split; [exact Hf|]. split; [reflexivity|].
  rewrite (proj2 (parseBytes_fields
                    (fun (s : string) (_ : Z) => Z.of_nat (String.length s))
                    ":" 16 ["10"; "20"; "BA"] [7; 7; 7; 7; 7; 7] 6
                    ltac:(discriminate) Hf) 3%nat) by (cbn; lia).
  reflexivity.
Defined.

Lemma parseBytes_loop_bytes strtoul n : forall i str sep bytes base,
  Forall (fun b => 0 <= b < 256) bytes ->
  Forall (fun b => 0 <= b < 256) (parseBytes_loop strtoul n i str sep bytes base).
Proof.
  induction n as [|n IH]; intros i str sep bytes base Hb; cbn; [exact Hb|].
  assert (Hi : Forall (fun b => 0 <= b < 256) (<[i:=strtoul str base mod 256]> bytes)).
  { destruct (Nat.lt_ge_cases i (length bytes)).
    - apply Forall_insert; [exact Hb | apply Z.mod_pos_bound; lia].
    - rewrite list_insert_ge by lia. exact Hb. }
  destruct (strchr str sep) as [[|a rest]|]; try exact Hi.
  destruct (Ascii.eqb a Ascii.zero); [exact Hi | apply IH, Hi].
Qed.

(** X19.  [parseBytes] on any text, for any [strtoul]: the array keeps its
    length, no entry at or beyond [maxBytes] is touched, and with
    [maxBytes] at least 1 entry 0 is always written, even for the empty
    text.  So [peerMac] holds six values from 0 to 255 whatever address
    text is stored. *)
Theorem parseBytes_bounds strtoul str sep bytes maxBytes base :
  let r := parseBytes strtoul str sep bytes maxBytes base in
  length r = length bytes
  /\ (forall k, (Z.to_nat maxBytes <= k)%nat -> r !! k = bytes !! k)
  /\ (1 <= maxBytes -> bytes <> [] -> r !! 0%nat = Some (strtoul str base mod 256))
  /\ (maxBytes <= 0 -> r = bytes)
  /\ (forall c, length (load_peerMac strtoul c) = 6%nat
                 /\ Forall (fun b => 0 <= b < 256) (load_peerMac strtoul c)).
Proof.
  cbv zeta. unfold parseBytes.
  split; [apply parseBytes_loop_length|].
  assert (Hmac : forall c, length (load_peerMac strtoul c) = 6%nat
                 /\ Forall (fun b => 0 <= b < 256) (load_peerMac strtoul c)).
  { intros c. unfold load_peerMac, parseBytes. split.
    - rewrite parseBytes_loop_length. reflexivity.
    - apply parseBytes_loop_bytes. repeat constructor; lia. }
  split; [|split; [|split; [|exact Hmac]]].
  - intros k Hk. apply parseBytes_loop_outside. lia.
  - intros Hm Hb. destruct (Z.to_nat maxBytes) as [|n] eqn:E; [lia|].
    cbn [parseBytes_loop].
    assert (H0 : <[0%nat:=strtoul str base mod 256]> bytes !! 0%nat
                 = Some (strtoul str base mod 256)).
    { apply list_lookup_insert_eq. destruct bytes; [contradiction | cbn; lia]. }
    destruct (strchr str sep) as [[|a rest]|]; try exact H0.
    destruct (Ascii.eqb a Ascii.zero); [exact H0|].
    rewrite parseBytes_loop_outside by lia. exact H0.
  - intros Hm. replace (Z.to_nat maxBytes) with 0%nat by lia. reflexivity.
Qed.

Lemma parseBytes_bounds_witness :
  let strtoul := fun (s : string) (_ : Z) => Z.of_nat (String.length s) in
  1 <= 6 /\ [7; 7] <> []
  /\ parseBytes strtoul "" ":" [7; 7] 6 16 !! 0%nat = Some 0.
Proof.
  cbv zeta. split; [lia|]. split; [discriminate|].
  apply (proj1 (proj2 (proj2 (parseBytes_bounds
           (fun (s : string) (_ : Z) => Z.of_nat (String.length s))
           "" ":" [7; 7] 6 16)))); [lia | discriminate].
Defined.

(** ** The watchdog and the 32-bit clock *)

(** X20.  The watchdog measures time across a wrap of the millisecond
    clock: if the last sample was taken at time [Ts] and the tick runs at
    time [Tn], less than 2^32 ms later, [elapsed] is [Tn - Ts] although
    both clock readings are taken modulo 2^32.  Beyond that the
    measurement repeats: a tick 2^32 ms later sees the same [elapsed]. *)
Theorem watchdog_across_wrap w Ts Tn :
  last_packet_ms (sys w) = u32 Ts ->
  0 <= Tn - Ts < 2 ^ 32 ->
  elapsed_ms (u32 Tn) w = Tn - Ts
  /\ signal_lost (u32 Tn) w = (1000 <? Tn - Ts)
  /\ forall k, elapsed_ms (u32 (Tn + k * 2 ^ 32)) w = Tn - Ts.
Proof.
  intros Hp Hd.
  assert (He : elapsed_ms (u32 Tn) w = Tn - Ts).
  { unfold elapsed_ms. rewrite Hp. unfold u32.
    rewrite Zminus_mod_idemp_l, Zminus_mod_idemp_r. apply Z.mod_small. exact Hd. }
  split; [exact He|]. split.
  - unfold signal_lost, WATCHDOG_MS. rewrite He. reflexivity.
  - intros k. rewrite <- He. unfold elapsed_ms, u32 at 2 4.
    rewrite Z.mod_add by lia. reflexivity.
Qed.

Lemma watchdog_across_wrap_witness :
  let w := uwb_range (F32.of_Z 480) (u32 (2 ^ 32 - 100)) (boot no_prefs) in
  last_packet_ms (sys w) = u32 (2 ^ 32 - 100)
  /\ 0 <= (2 ^ 32 + 300) - (2 ^ 32 - 100) < 2 ^ 32
  /\ u32 (2 ^ 32 + 300) = 300
  /\ elapsed_ms 300 w = 400
  /\ signal_lost 300 w = false.
Proof.
  cbv zeta.
  assert (Hd : 0 <= (2 ^ 32 + 300) - (2 ^ 32 - 100) < 2 ^ 32) by lia.
  split; [reflexivity|]. split; [exact Hd|]. split; [reflexivity|].
  pose proof (watchdog_across_wrap
                (uwb_range (F32.of_Z 480) (u32 (2 ^ 32 - 100)) (boot no_prefs))
                (2 ^ 32 - 100) (2 ^ 32 + 300) eq_refl Hd) as (H1 & H2 & _).
  split; [exact H1 | exact H2].
Defined.

(** ** Reaction to a close sample *)

Lemma coil_is_stop level : coil_of_level level = 1 -> level = STOP.
Proof.
  unfold coil_of_level, coil_status, STOP.
  destruct (Z.eqb_spec level 2); [auto|].
  destruct (level =? 1), (level =? 0), (level =? 3); discriminate.
Qed.

(** X21.  Stop takes effect in the tick that sees it.  In any state
    reached from the start whose level is not Stop, a tick that finds the
    link alive and the stored distance at or below the stop threshold sets
    the level to Stop, turns the red relay on and the other three off, and
    hands the pattern 1 to the relay board in that same tick. *)
Theorem stop_is_immediate p es now t_log :
  let w := run es (boot p) in
  signal_lost now w = false ->
  safety_level (sys w) <> STOP ->
  valid_f32 (limit_stop_cm (cfg w)) = true ->
  f_le (distance_cm (sys w)) (limit_stop_cm (cfg w)) = true ->
  let r := checkSafetyAndRelays now t_log w in
  safety_level (sys (fst r)) = STOP
  /\ last_known_zone (sys (fst r)) = STOP
  /\ relay_red (sys (fst r)) = true
  /\ relay_yellow (sys (fst r)) = false
  /\ relay_green (sys (fst r)) = false
  /\ relay_health (sys (fst r)) = false
  /\ snd r = Some 1.
Proof.
  intros w Halive Hlevel Hv Hd r. subst r.
  pose proof (Inv_run p es) as I. fold w in I.
  assert (Hl : next_level now w = STOP).
  { unfold next_level, classify. rewrite Halive. cbv zeta.
    destruct (Z.eqb_spec (safety_level (sys w)) 2); [contradiction|].
    rewrite (eff_limit_flat _ _ Hv), Hd. reflexivity. }
  destruct (tick_relays_of now t_log w) as (Hr & Hy & Hg & Hh).
  rewrite tick_level, tick_zone, Halive, Hr, Hy, Hg, Hh, Hl.
  repeat (split; [reflexivity|]).
  pose proof (proj1 (tick_bus now t_log w)) as Hs. cbv zeta in Hs.
  rewrite Hs, Hl. unfold bus_write. rewrite Hl.
  destruct (Z.eqb_spec (coil_of_level STOP) (lastCoilStatus w)) as [E|E];
    [|reflexivity].
  exfalso. destruct (inv_coil _ _ I) as [H|H].
  - rewrite H in E. discriminate.
  - rewrite H in E. symmetry in E. apply coil_is_stop in E. contradiction.
Qed.

Lemma stop_is_immediate_witness :
  let es := [Range (F32.of_Z 600) 10000; Tick 10001 10001; Range (F32.of_Z 480) 10100] in
  let w := run es (boot no_prefs) in
  signal_lost 10101 w = false
  /\ safety_level (sys w) = WARN
  /\ f_le (distance_cm (sys w)) (limit_stop_cm (cfg w)) = true
  /\ snd (checkSafetyAndRelays 10101 10101 w) = Some 1.
Proof.
  cbv zeta. split; [reflexivity|]. split; [reflexivity|]. split; [reflexivity|].
  apply (stop_is_immediate no_prefs
           [Range (F32.of_Z 600) 10000; Tick 10001 10001; Range (F32.of_Z 480) 10100]
           10101 10101 eq_refl ltac:(discriminate) eq_refl eq_refl).
Defined.

(** ** What the counters count *)

Lemma record_counters t_log level d q st h head :
  let st' := fst (record_transition t_log level d q st h head) in
  let inc := fun z c => if (level =? z) && negb (last_level_stats st =? z)
                        then u32 (c + 1) else c in
  red_entries st' = inc STOP (red_entries st)
  /\ yellow_entries st' = inc WARN (yellow_entries st)
  /\ comm_drops st' = inc COMMLOSS (comm_drops st).
Proof.
  cbv zeta. unfold record_transition, STOP, WARN, COMMLOSS.
  destruct (Z.eqb_spec level (last_level_stats st)) as [<-|Hne]; cbn [negb fst].
  - destruct (level =? 2), (level =? 1), (level =? 3); repeat split.
  - cbn [red_entries yellow_entries comm_drops].
    destruct (Z.eqb_spec level 2), (Z.eqb_spec level 1), (Z.eqb_spec level 3),
             (Z.eqb_spec (last_level_stats st) 2),
             (Z.eqb_spec (last_level_stats st) 1),
             (Z.eqb_spec (last_level_stats st) 3);
      cbn [andb negb]; try lia; repeat split.
Qed.

Lemma u32_step a n : u32 (u32 (a + 1) + n) = u32 (a + (1 + n)).
Proof. unfold u32. rewrite Zplus_mod_idemp_l. f_equal. ring. Qed.

Lemma counters_count_from es : forall w,
  u32 (red_entries (stats (run es w)))
  = u32 (red_entries (stats w)
         + entries_into STOP (last_level_stats (stats w)) (levels es w))
  /\ u32 (yellow_entries (stats (run es w)))
     = u32 (yellow_entries (stats w)
            + entries_into WARN (last_level_stats (stats w)) (levels es w))
  /\ u32 (comm_drops (stats (run es w)))
     = u32 (comm_drops (stats w)
            + entries_into COMMLOSS (last_level_stats (stats w)) (levels es w)).
Proof.
  induction es as [|[now t_log|d t] es IH]; intros w.
  - cbn [run levels ticks List.map entries_into]. rewrite !Z.add_0_r. auto.
  - rewrite run_tick, levels_tick. cbn [entries_into].
    set (w1 := fst (checkSafetyAndRelays now t_log w)).
    pose proof (tick_stats now t_log w) as Hs. fold w1 in Hs.
    set (l := next_level now w) in *.
    pose proof (record_counters t_log l (distance_cm (sys w))
                  (calc_link_quality (elapsed_ms now w))
                  (stats w) (history w) (logHead w)) as Hc.
    cbv zeta in Hc. rewrite <- Hs in Hc. destruct Hc as (Hr & Hy & Hc).
    assert (Hlast : last_level_stats (stats w1) = l)
      by (rewrite Hs; apply record_last).
    destruct (IH w1) as (I1 & I2 & I3).
    rewrite I1, I2, I3, Hlast, Hr, Hy, Hc.
    repeat split;
      match goal with
      | |- context [if ?b then _ else _] => destruct b
      end; rewrite ?u32_step, ?Z.add_0_l; reflexivity.
  - rewrite run_range, levels_range.
    destruct (range_record d t w) as (Hs & _). rewrite <- Hs. apply IH.
Qed.

(** X16.  The statistics count entries into zones: after any run from the
    start each counter is, modulo 2^32, the number of ticks at which the
    level became Stop (Warn, CommLoss) from another level. *)
Theorem counters_count_entries p es :
  let w := run es (boot p) in
  let ls := levels es (boot p) in
  red_entries (stats w) = u32 (entries_into STOP SAFE ls)
  /\ yellow_entries (stats w) = u32 (entries_into WARN SAFE ls)
  /\ comm_drops (stats w) = u32 (entries_into COMMLOSS SAFE ls).
Proof.
  cbv zeta.
  destruct (counters_count_from es (boot p)) as (H1 & H2 & H3).
  destruct (inv_counters _ _ (Inv_run p es)) as (R1 & R2 & R3).
  unfold u32 in H1 at 1, H2 at 1, H3 at 1.
  rewrite Z.mod_small in H1, H2, H3 by assumption.
  rewrite H1, H2, H3. repeat split.
Qed.
